(** * IndigoGlass Nexus: the demand-forecasting pipeline

    A shallow embedding of the model registry ([admin.py], [train.py]),
    the feature engineering and hold-out split ([features.py]), the
    walk-forward cross-validation and the error metrics ([train.py]), the
    forecast serving endpoint with its cache and the distributed lock
    ([forecast.py], [redis.py]), the role checks ([security.py]) and the
    user management endpoints ([admin.py]), with the properties of the
    specification stated and proved over it.

    Conventions: a table is the list of its rows in insertion order; a
    date is a day number in [Z]; a timestamp is a number of seconds in [Z];
    a floating-point quantity is an exact rational in [Q]. *)

From Stdlib Require Import ZArith QArith Qminmax Qabs String List Lia.
From stdpp Require Import base decidable option list sorting strings pretty gmap.

Local Open Scope Z_scope.
Local Open Scope string_scope.
Local Open Scope list_scope.
Local Open Scope nat_scope.

(** ** Outcomes of fallible code *)

(** The exceptions the embedded code raises. [HTTPException] carries the
    status code and the detail string, as FastAPI's does. *)
Inductive exn : Type :=
| HTTPException (status_code : nat) (detail : string)
| MultipleResultsFound
| IntegrityError
| ValueError (msg : string).

Inductive outcome (A : Type) : Type :=
| Returns (a : A)
| Raises (e : exn).
Arguments Returns {A} a.
Arguments Raises {A} e.

Definition HTTP_404_NOT_FOUND : nat := 404.
Definition HTTP_400_BAD_REQUEST : nat := 400.

(** [Result.scalar_one_or_none]: the single row, nothing, or an error when
    the query produced several rows. *)
Definition scalar_one_or_none {A : Type} (rows : list A) : outcome (option A) :=
  match rows with
  | [] => Returns None
  | [r] => Returns (Some r)
  | _ :: _ :: _ => Raises MultipleResultsFound
  end.

(** ** The model registry tables ([app/models/__init__.py]) *)

Inductive model_status : Type := staged | prod | archived.

Global Instance model_status_eq_dec : EqDecision model_status.
Proof. solve_decision. Defined.

(** A row of [ml_model]: the columns the promotion and the serving code
    read or write. *)
Module MLModel.
Record row : Type := mk {
  id : nat;
  model_name : string;
  version : string;
  metrics_json : string;
  status : model_status;
  promoted_at : option Z;
  promoted_by : option string
}.
End MLModel.

Record AuthAuditLog : Type := mkAudit {
  audit_user_id : nat;
  audit_action : string;
  audit_entity_type : string;
  audit_entity_id : string;
  audit_previous_status : model_status;
  audit_new_status : model_status
}.

(** The part of the warehouse the registry operations touch. [ml_model_seq]
    is the auto-increment counter of [ml_model.id]. *)
Record registry : Type := mkRegistry {
  ml_model : list MLModel.row;
  ml_model_seq : nat;
  auth_audit_log : list AuthAuditLog
}.

Definition empty_registry : registry := mkRegistry [] 1 [].

Module Registry.

(** *** [register_model] ([train.py]) *)

(** The INSERT of [register_model]: status ['staged'], no promotion stamp.
    The unique constraint on (model_name, version) rejects a second row
    with the same pair. *)
Definition register_model (name ver metrics : string) (db : registry)
  : outcome nat * registry :=
  if decide (Exists (fun m => MLModel.model_name m = name /\ MLModel.version m = ver)
                    (ml_model db))
  then (Raises IntegrityError, db)
  else
    let model_id := ml_model_seq db in
    (Returns model_id,
     mkRegistry
       (ml_model db ++ [MLModel.mk model_id name ver metrics staged None None])
       (S model_id)
       (auth_audit_log db)).

(** *** [promote_model] ([admin.py]) *)

Record PromoteModelRequest : Type := mkPromoteReq {
  req_model_name : string;
  req_version : string
}.

(** The fields of the token payload the endpoint uses; [sub] is the user
    id the token was issued for. *)
Record TokenPayload : Type := mkToken {
  sub : nat;
  email : string
}.

Record PromoteModelResponse : Type := mkPromoteResp {
  resp_model_name : string;
  resp_version : string;
  previous_status : model_status;
  new_status : model_status;
  resp_promoted_at : Z
}.

(** [update(MLModel).where(model_name == name, status == 'prod')
      .values(status='archived')], row by row. *)
Definition archive_prod (name : string) (m : MLModel.row) : MLModel.row :=
  if decide (MLModel.model_name m = name /\ MLModel.status m = prod)
  then MLModel.mk (MLModel.id m) (MLModel.model_name m) (MLModel.version m)
                  (MLModel.metrics_json m) archived
                  (MLModel.promoted_at m) (MLModel.promoted_by m)
  else m.

(** The flush of the mutated ORM object: the row with the object's primary
    key gets the new status and the promotion stamp. *)
Definition set_promoted (target : nat) (now : Z) (by_email : string)
    (m : MLModel.row) : MLModel.row :=
  if decide (MLModel.id m = target)
  then MLModel.mk (MLModel.id m) (MLModel.model_name m) (MLModel.version m)
                  (MLModel.metrics_json m) prod (Some now) (Some by_email)
  else m.

(** The table a successful promotion writes. *)
Definition promoted_table (name : string) (target : nat) (now : Z) (by_email : string)
    (tbl : list MLModel.row) : list MLModel.row :=
  set_promoted target now by_email <$> (archive_prod name <$> tbl).

Definition not_found_detail (name ver : string) : string :=
  "Model " ++ name ++ " version " ++ ver ++ " not found".

Definition already_prod_detail : string := "Model is already in prod status".

(** The endpoint. An exception leaves the session uncommitted
    ([get_session] rolls back), so the registry is returned unchanged. *)
Definition promote_model (body : PromoteModelRequest) (current_user : TokenPayload)
    (now : Z) (db : registry) : outcome PromoteModelResponse * registry :=
  let name := req_model_name body in
  let ver := req_version body in
  match scalar_one_or_none
          (filter (fun m => MLModel.model_name m = name /\ MLModel.version m = ver)
                  (ml_model db)) with
  | Raises e => (Raises e, db)
  | Returns None =>
      (Raises (HTTPException HTTP_404_NOT_FOUND (not_found_detail name ver)), db)
  | Returns (Some model) =>
      if decide (MLModel.status model = prod)
      then (Raises (HTTPException HTTP_400_BAD_REQUEST already_prod_detail), db)
      else
        let prev := MLModel.status model in
        let tbl :=
          promoted_table name (MLModel.id model) now (email current_user) (ml_model db) in
        let audit :=
          mkAudit (sub current_user) "promote_model" "ml_model"
                  (name ++ ":" ++ ver) prev prod in
        (Returns (mkPromoteResp name ver prev prod now),
         mkRegistry tbl (ml_model_seq db) (auth_audit_log db ++ [audit]))
  end.

(** The two rejections the specification names. *)
Definition NotFoundError (name ver : string) : exn :=
  HTTPException HTTP_404_NOT_FOUND (not_found_detail name ver).
Definition AlreadyPromotedError : exn :=
  HTTPException HTTP_400_BAD_REQUEST already_prod_detail.

(** A sequence of promotions of versions of one model name, each with the
    caller and the time of the call. *)
Definition promote_call : Type := (string * TokenPayload * Z)%type.

Fixpoint run_promotes (name : string) (calls : list promote_call) (db : registry)
  : registry :=
  match calls with
  | [] => db
  | (ver, user, now) :: rest =>
      run_promotes name rest (snd (promote_model (mkPromoteReq name ver) user now db))
  end.

(** The registries the two operations build from the empty one. *)
Inductive reachable : registry -> Prop :=
| reach_empty : reachable empty_registry
| reach_register name ver metrics db :
    reachable db -> reachable (snd (register_model name ver metrics db))
| reach_promote body user now db :
    reachable db -> reachable (snd (promote_model body user now db)).

Definition prod_rows (name : string) (tbl : list MLModel.row) : list MLModel.row :=
  filter (fun m => MLModel.model_name m = name /\ MLModel.status m = prod) tbl.

(** The unique key (model_name, version) of a row. *)
Definition key (m : MLModel.row) : string * string :=
  (MLModel.model_name m, MLModel.version m).

(** The constraints of the schema together with the promotion invariant. *)
Record well_formed (db : registry) : Prop := mkWellFormed {
  wf_primary_key : NoDup (MLModel.id <$> ml_model db);
  wf_sequence : forall m, m ∈ ml_model db -> MLModel.id m < ml_model_seq db;
  wf_unique_version : NoDup (key <$> ml_model db);
  wf_one_prod : forall name, length (prod_rows name (ml_model db)) <= 1
}.

End Registry.

(** ** Calendar arithmetic

    A date is its day number, counted from 1970-01-01 (day 0). The
    conversions are those of the proleptic Gregorian calendar that
    [datetime.date] and pandas timestamps use. *)
Module Calendar.

Local Open Scope Z_scope.

Definition days_from_civil (y m d : Z) : Z :=
  let y' := if m <=? 2 then y - 1 else y in
  let era := y' / 400 in
  let yoe := y' - era * 400 in
  let mp := if 2 <? m then m - 3 else m + 9 in
  let doy := (153 * mp + 2) / 5 + d - 1 in
  let doe := yoe * 365 + yoe / 4 - yoe / 100 + doy in
  era * 146097 + doe - 719468.

(** Year, month and day of a day number. *)
Definition civil_from_days (z : Z) : Z * Z * Z :=
  let z' := z + 719468 in
  let era := z' / 146097 in
  let doe := z' - era * 146097 in
  let yoe := (doe - doe / 1460 + doe / 36524 - doe / 146096) / 365 in
  let doy := doe - (365 * yoe + yoe / 4 - yoe / 100) in
  let mp := (5 * doy + 2) / 153 in
  let d := doy - (153 * mp + 2) / 5 + 1 in
  let m := if mp <? 10 then mp + 3 else mp - 9 in
  let y := yoe + era * 400 in
  (if m <=? 2 then y + 1 else y, m, d).

Definition year (z : Z) : Z := fst (fst (civil_from_days z)).
Definition month (z : Z) : Z := snd (fst (civil_from_days z)).
Definition day (z : Z) : Z := snd (civil_from_days z).

(** [dt.dayofweek]: Monday is 0; 1970-01-01 was a Thursday. *)
Definition dayofweek (z : Z) : Z := (z + 3) mod 7.

Definition dayofyear (z : Z) : Z := z - days_from_civil (year z) 1 1 + 1.

Definition quarter (z : Z) : Z := (month z - 1) / 3 + 1.

(** ISO week number: the ordinal week, within its year, of the Thursday of
    the date's week. *)
Definition isocalendar_week (z : Z) : Z :=
  let thursday := z - dayofweek z + 3 in
  (dayofyear thursday - 1) / 7 + 1.

Definition is_month_start (z : Z) : bool := day z =? 1.
Definition is_month_end (z : Z) : bool := day (z + 1) =? 1.

(** Decimal digits, padded with zeros on the left to [width]. *)
Fixpoint digits (fuel : nat) (n : Z) : string :=
  match fuel with
  | O => ""
  | S fuel' =>
      digits fuel' (n / 10)
      ++ String (Ascii.ascii_of_nat (48 + Z.to_nat (n mod 10))) ""
  end.

(** [date.isoformat()], for the years 0 to 9999 that [datetime.date] holds. *)
Definition isoformat (z : Z) : string :=
  digits 4 (year z) ++ "-" ++ digits 2 (month z) ++ "-" ++ digits 2 (day z).

(** [int(d.strftime("%Y%m%d"))], the key of [dim_date]. *)
Definition date_key (z : Z) : Z := year z * 10000 + month z * 100 + day z.

End Calendar.

(** ** The pandas operations the feature code uses

    A numeric series is a list of optional values, [None] standing for
    NaN. *)
Module Pandas.

Abbreviation series A := (list (option A)) (only parsing).

(** [Series.shift(n)] for [n >= 0]: the values move [n] positions down,
    NaN enters at the top, the length is kept. *)
Definition shift {A : Type} (n : nat) (s : series A) : series A :=
  take (length s) (replicate n None ++ s).

(** The positions [p - w + 1 .. p] of a series (fewer at its start). *)
Definition window {A : Type} (w p : nat) (s : list A) : list A :=
  drop (S p - w) (take (S p) s).

(** The values of a window that are not NaN. *)
Definition valid {A : Type} (xs : series A) : list A := omap (fun x => x) xs.

(** [Series.rolling(w, min_periods=k).agg()]: NaN where the window holds
    fewer than [k] values, the aggregate of the values otherwise. *)
Definition rolling {B : Type} (w min_periods : nat) (agg : list Q -> option B)
    (s : series Q) : series B :=
  imap (fun p _ =>
          let xs := valid (window w p s) in
          if (length xs <? min_periods)%nat then None else agg xs) s.

Definition Qsum (xs : list Q) : Q := foldr Qplus 0%Q xs.

Definition count (xs : list Q) : Q := inject_Z (Z.of_nat (length xs)).

Definition mean (xs : list Q) : option Q :=
  match xs with
  | [] => None
  | _ :: _ => Some (Qsum xs / count xs)%Q
  end.

(** The square root of a rational, kept as the exact expression. *)
Inductive root : Type := sqrt_of (radicand : Q).

(** Sample variance (one degree of freedom removed), undefined for fewer
    than two values. *)
Definition var (xs : list Q) : option Q :=
  match xs with
  | [] | [_] => None
  | _ :: _ :: _ =>
      let m := (Qsum xs / count xs)%Q in
      Some (Qsum ((fun x => (x - m) * (x - m))%Q <$> xs) / (count xs - 1))%Q
  end.

Definition std (xs : list Q) : option root := sqrt_of <$> var xs.

Definition min (xs : list Q) : option Q :=
  match xs with
  | [] => None
  | x :: rest => Some (foldl Qmin x rest)
  end.

Definition max (xs : list Q) : option Q :=
  match xs with
  | [] => None
  | x :: rest => Some (foldl Qmax x rest)
  end.

(** [Series.fillna(v)]. *)
Definition fillna {A : Type} (v : A) (s : series A) : series A :=
  (fun x => Some (default v x)) <$> s.

(** Element-wise arithmetic with NaN propagation. *)
Definition lift2 {A B C : Type} (f : A -> B -> C) (a : series A) (b : series B)
  : series C :=
  zip_with (fun x y => match x, y with
                       | Some u, Some v => Some (f u v)
                       | _, _ => None
                       end) a b.

(** The result of a floating-point division of finite numbers. *)
Inductive quotient : Type :=
| finite (q : Q)
| inf
| neg_inf.

(** [x / y] in floating point: a zero divisor gives an infinity, or NaN
    for [0 / 0]. *)
Definition truediv (x y : Q) : option quotient :=
  if Qeq_bool y 0 then
    if Qeq_bool x 0 then None
    else if Qle_bool 0 x then Some inf else Some neg_inf
  else Some (finite (x / y)%Q).

Definition div (a b : series Q) : series quotient :=
  zip_with (fun x y => match x, y with
                       | Some u, Some v => truediv u v
                       | _, _ => None
                       end) a b.

(** [s + c] for a scalar [c]. *)
Definition add_scalar (c : Q) (s : series Q) : series Q :=
  (fun v : option Q => (fun q => q + c)%Q <$> v) <$> s.

(** The value of a column at a row. *)
Definition at_ {A : Type} (col : series A) (i : nat) : option A := mjoin (col !! i).

End Pandas.

(** ** Feature engineering ([jobs/ml/features.py]) *)
Module Features.

Import Pandas.

(** A row of the raw sales frame. *)
Record Observation : Type := mkObservation {
  date : Z;
  product_id : string;
  location_id : string;
  quantity : Q
}.

Definition group_key (o : Observation) : string * string :=
  (product_id o, location_id o).

(** [df.groupby(["product_id", "location_id"])["quantity"].transform(f)]:
    [f] runs on the quantities of each group in row order, and a row gets
    the value at its position within its group. [groupby(...).shift(n)] is
    the instance [f = shift n]. *)
Definition groupby_transform {B : Type} (f : series Q -> series B)
    (df : list Observation) : series B :=
  imap (fun i r =>
          let in_group := fun o : Observation => group_key o = group_key r in
          let x := (fun o => Some (quantity o)) <$> filter in_group df in
          at_ (f x) (length (filter in_group (take i df)))) df.

(** Exact values of the cyclical encodings: [sin_2pi x] is sin(2 pi x). *)
Inductive trig : Type :=
| sin_2pi (x : Q)
| cos_2pi (x : Q).

Record DateFeatures : Type := mkDateFeatures {
  day_of_week : Z;
  day_of_month : Z;
  day_of_year : Z;
  week_of_year : Z;
  month : Z;
  quarter : Z;
  year : Z;
  dow_sin : trig;
  dow_cos : trig;
  month_sin : trig;
  month_cos : trig;
  is_weekend : Z;
  is_month_start : Z;
  is_month_end : Z
}.

Definition astype_int (b : bool) : Z := if b then 1%Z else 0%Z.

Definition add_date_features (d : Z) : DateFeatures :=
  let dow := Calendar.dayofweek d in
  let mon := Calendar.month d in
  mkDateFeatures
    dow (Calendar.day d) (Calendar.dayofyear d) (Calendar.isocalendar_week d)
    mon (Calendar.quarter d) (Calendar.year d)
    (sin_2pi (inject_Z dow / 7)) (cos_2pi (inject_Z dow / 7))
    (sin_2pi (inject_Z mon / 12)) (cos_2pi (inject_Z mon / 12))
    (astype_int (5 <=? dow)%Z)
    (astype_int (Calendar.is_month_start d))
    (astype_int (Calendar.is_month_end d)).

Record HolidayFeatures : Type := mkHolidayFeatures {
  is_holiday : Z;
  days_to_holiday : Z;
  days_since_holiday : Z
}.

Definition sorted (l : list Z) : list Z := merge_sort Z.le l.

(** [Series.clip(upper=u)]. *)
Definition clip_upper (u x : Z) : Z := Z.min x u.

Definition days_to_holiday_raw (holiday_dates : list Z) (d : Z) : Z :=
  match filter (fun h => (d < h)%Z) holiday_dates with
  | h :: _ => (h - d)%Z
  | [] => 999%Z
  end.

Definition days_since_holiday_raw (holiday_dates : list Z) (d : Z) : Z :=
  match last (filter (fun h => (h < d)%Z) holiday_dates) with
  | Some h => (d - h)%Z
  | None => 999%Z
  end.

(** [country_holidays] is the holiday provider: from the years of the
    frame to the holiday dates of the country. *)
Definition add_holiday_features (country_holidays : list Z -> list Z)
    (df : list Observation) (d : Z) : HolidayFeatures :=
  let years := remove_dups (Calendar.year <$> (date <$> df)) in
  let holidays := country_holidays years in
  let holiday_dates := sorted holidays in
  mkHolidayFeatures
    (astype_int (bool_decide (d ∈ holidays)))
    (clip_upper 30 (days_to_holiday_raw holiday_dates d))
    (clip_upper 30 (days_since_holiday_raw holiday_dates d)).

Record LagFeatures : Type := mkLagFeatures {
  qty_lag_1d : option Q;
  qty_lag_7d : option Q;
  qty_lag_14d : option Q;
  qty_lag_28d : option Q;
  qty_same_dow_1w : option Q;
  qty_same_dow_2w : option Q;
  qty_same_dow_4w : option Q
}.

Definition qty_lag (lag : nat) (df : list Observation) : series Q :=
  groupby_transform (shift lag) df.

Record RollingFeatures : Type := mkRollingFeatures {
  qty_rolling_mean_7d : option Q;
  qty_rolling_std_7d : option root;
  qty_rolling_min_7d : option Q;
  qty_rolling_max_7d : option Q;
  qty_rolling_mean_14d : option Q;
  qty_rolling_std_14d : option root;
  qty_rolling_min_14d : option Q;
  qty_rolling_max_14d : option Q;
  qty_rolling_mean_28d : option Q;
  qty_rolling_std_28d : option root;
  qty_rolling_min_28d : option Q;
  qty_rolling_max_28d : option Q
}.

(** One rolling column: the statistic of the trailing window of the series
    shifted by one row. *)
Definition qty_rolling {B : Type} (agg : list Q -> option B) (window : nat)
    (df : list Observation) : series B :=
  groupby_transform (fun x => rolling window 1 agg (shift 1 x)) df.

Definition qty_rolling_std (window : nat) (df : list Observation) : series root :=
  fillna (sqrt_of 0) (qty_rolling std window df).

Record TrendFeatures : Type := mkTrendFeatures {
  qty_wow_change : option Q;
  qty_wow_pct_change : option quotient;
  short_long_ratio : option quotient
}.

Definition wow_change (df : list Observation) : series Q :=
  groupby_transform (fun x => lift2 Qminus (shift 1 x) (shift 8 x)) df.

Definition wow_pct_change (df : list Observation) : series quotient :=
  groupby_transform
    (fun x => div (lift2 Qminus (shift 1 x) (shift 8 x))
                  (add_scalar 1 (shift 8 x))) df.

(** A row of the engineered frame. *)
Record FeatureRow : Type := mkFeatureRow {
  obs : Observation;
  calendar : DateFeatures;
  holiday : HolidayFeatures;
  lags : LagFeatures;
  rolling_stats : RollingFeatures;
  trend : TrendFeatures
}.

Definition add_lag_features (df : list Observation) : nat -> LagFeatures :=
  let l1 := qty_lag 1 df in
  let l7 := qty_lag 7 df in
  let l14 := qty_lag 14 df in
  let l28 := qty_lag 28 df in
  let w1 := qty_lag 7 df in
  let w2 := qty_lag 14 df in
  let w4 := qty_lag 28 df in
  fun i => mkLagFeatures (at_ l1 i) (at_ l7 i) (at_ l14 i) (at_ l28 i)
                         (at_ w1 i) (at_ w2 i) (at_ w4 i).

Definition add_rolling_features (df : list Observation) : nat -> RollingFeatures :=
  let mean7 := qty_rolling mean 7 df in
  let std7 := qty_rolling_std 7 df in
  let min7 := qty_rolling min 7 df in
  let max7 := qty_rolling max 7 df in
  let mean14 := qty_rolling mean 14 df in
  let std14 := qty_rolling_std 14 df in
  let min14 := qty_rolling min 14 df in
  let max14 := qty_rolling max 14 df in
  let mean28 := qty_rolling mean 28 df in
  let std28 := qty_rolling_std 28 df in
  let min28 := qty_rolling min 28 df in
  let max28 := qty_rolling max 28 df in
  fun i => mkRollingFeatures
             (at_ mean7 i) (at_ std7 i) (at_ min7 i) (at_ max7 i)
             (at_ mean14 i) (at_ std14 i) (at_ min14 i) (at_ max14 i)
             (at_ mean28 i) (at_ std28 i) (at_ min28 i) (at_ max28 i).

Definition add_trend_features (df : list Observation) : nat -> TrendFeatures :=
  let change := wow_change df in
  let pct := wow_pct_change df in
  let ratio :=
    div (qty_rolling mean 7 df) (add_scalar 1 (qty_rolling mean 28 df)) in
  fun i => mkTrendFeatures (at_ change i) (at_ pct i) (at_ ratio i).

(** [notna] on every column of a row: the raw columns and the calendar and
    holiday columns always hold a value. *)
Definition notna (r : FeatureRow) : bool :=
  let l := lags r in
  let s := rolling_stats r in
  let t := trend r in
  bool_decide (is_Some (qty_lag_1d l)) && bool_decide (is_Some (qty_lag_7d l))
  && bool_decide (is_Some (qty_lag_14d l)) && bool_decide (is_Some (qty_lag_28d l))
  && bool_decide (is_Some (qty_same_dow_1w l))
  && bool_decide (is_Some (qty_same_dow_2w l))
  && bool_decide (is_Some (qty_same_dow_4w l))
  && bool_decide (is_Some (qty_rolling_mean_7d s))
  && bool_decide (is_Some (qty_rolling_std_7d s))
  && bool_decide (is_Some (qty_rolling_min_7d s))
  && bool_decide (is_Some (qty_rolling_max_7d s))
  && bool_decide (is_Some (qty_rolling_mean_14d s))
  && bool_decide (is_Some (qty_rolling_std_14d s))
  && bool_decide (is_Some (qty_rolling_min_14d s))
  && bool_decide (is_Some (qty_rolling_max_14d s))
  && bool_decide (is_Some (qty_rolling_mean_28d s))
  && bool_decide (is_Some (qty_rolling_std_28d s))
  && bool_decide (is_Some (qty_rolling_min_28d s))
  && bool_decide (is_Some (qty_rolling_max_28d s))
  && bool_decide (is_Some (qty_wow_change t))
  && bool_decide (is_Some (qty_wow_pct_change t))
  && bool_decide (is_Some (short_long_ratio t)).

(** [DataFrame.dropna()]. *)
Definition dropna (df : list FeatureRow) : list FeatureRow :=
  filter (fun r => notna r = true) df.

(** The frame with every feature column added, before [dropna]. *)
Definition with_features (country_holidays : list Z -> list Z)
    (df : list Observation) : list FeatureRow :=
  let lag := add_lag_features df in
  let roll := add_rolling_features df in
  let trd := add_trend_features df in
  imap (fun i o =>
          mkFeatureRow o (add_date_features (date o))
                       (add_holiday_features country_holidays df (date o))
                       (lag i) (roll i) (trd i)) df.

Definition engineer_features (country_holidays : list Z -> list Z)
    (df : list Observation) : list FeatureRow :=
  dropna (with_features country_holidays df).

(** *** [prepare_train_test_split] *)

(** [df.sort_values("date")]. *)
Definition date_le (a b : FeatureRow) : Prop := (date (obs a) <= date (obs b))%Z.

Global Instance date_le_dec (a b : FeatureRow) : Decision (date_le a b).
Proof. unfold date_le. apply _. Defined.

Definition sort_values (df : list FeatureRow) : list FeatureRow :=
  merge_sort date_le df.

(** [df["date"].max()], NaT ([None]) for the empty frame. *)
Definition max_date (df : list FeatureRow) : option Z :=
  match df with
  | [] => None
  | r :: rest => Some (foldl (fun m x => Z.max m (date (obs x))) (date (obs r)) rest)
  end.

(** The local frames [train_df] and [test_df]. A comparison with NaT is
    false, so the empty frame gives two empty partitions. *)
Definition split_frames (df : list FeatureRow) (test_days : Z)
  : list FeatureRow * list FeatureRow :=
  let df' := sort_values df in
  match max_date df' with
  | None => ([], [])
  | Some latest =>
      let cutoff_date := (latest - test_days)%Z in
      (filter (fun r => (date (obs r) <= cutoff_date)%Z) df',
       filter (fun r => (cutoff_date < date (obs r))%Z) df')
  end.

(** The columns of [get_feature_columns] of a row. *)
Definition feature_cols (r : FeatureRow)
  : DateFeatures * HolidayFeatures * LagFeatures * RollingFeatures * TrendFeatures :=
  (calendar r, holiday r, lags r, rolling_stats r, trend r).

Definition prepare_train_test_split (df : list FeatureRow) (test_days : Z) :=
  let '(train_df, test_df) := split_frames df test_days in
  (feature_cols <$> train_df, feature_cols <$> test_df,
   (fun r => quantity (obs r)) <$> train_df,
   (fun r => quantity (obs r)) <$> test_df).

(** *** Notions for the properties *)

(** Two rows of one group are in strictly increasing date order. *)
Definition earlier_in_group (a b : Observation) : Prop :=
  group_key a = group_key b -> (date a < date b)%Z.

Global Instance earlier_in_group_dec (a b : Observation) :
  Decision (earlier_in_group a b).
Proof. unfold earlier_in_group. apply _. Defined.

(** A frame in which the rows of every group come in strictly increasing
    date order, as [load_training_data] returns them (one row per date and
    group, ordered by date). *)
Definition ordered (df : list Observation) : Prop :=
  StronglySorted earlier_in_group df.

(** The observations of the group of [o] dated strictly before [o]. *)
Definition past_of (o : Observation) (df : list Observation) : list Observation :=
  filter (fun x => group_key x = group_key o /\ (date x < date o)%Z) df.

(** The quantity observed [n] rows back ([n >= 1]) and the quantities of
    the last [w] rows, for the rows [past] that precede a row. *)
Definition lagged (n : nat) (past : list Observation) : option Q :=
  quantity <$> reverse past !! pred n.

Definition recent (w : nat) (past : list Observation) : list Q :=
  quantity <$> drop (length past - w) past.

(** The lag and the rolling columns written as functions of the rows that
    precede a row. *)
Definition lags_of_past (past : list Observation) : LagFeatures :=
  mkLagFeatures (lagged 1 past) (lagged 7 past) (lagged 14 past) (lagged 28 past)
                (lagged 7 past) (lagged 14 past) (lagged 28 past).

Definition std_or_zero (xs : list Q) : option root :=
  Some (default (sqrt_of 0) (std xs)).

Definition rolling_of_past (past : list Observation) : RollingFeatures :=
  mkRollingFeatures
    (mean (recent 7 past)) (std_or_zero (recent 7 past))
    (min (recent 7 past)) (max (recent 7 past))
    (mean (recent 14 past)) (std_or_zero (recent 14 past))
    (min (recent 14 past)) (max (recent 14 past))
    (mean (recent 28 past)) (std_or_zero (recent 28 past))
    (min (recent 28 past)) (max (recent 28 past)).

(** A transform of the series of a group whose value at a position reads
    neither the series at that position nor after it. *)
Definition past_only {B : Type} (f : series Q -> series B) : Prop :=
  forall (past : series Q) cur cur' rest rest',
    f (past ++ cur :: rest) !! length past
    = f (past ++ cur' :: rest') !! length past.

(** [d] is the greatest date of the frame. *)
Definition latest_date (df : list FeatureRow) (d : Z) : Prop :=
  (exists r, r ∈ df /\ date (obs r) = d)
  /\ forall r, r ∈ df -> (date (obs r) <= d)%Z.

End Features.

(** ** Training: metrics and cross-validation ([jobs/ml/train.py]) *)
Module Train.

Import Pandas.

Global Instance outcome_ret : MRet outcome := fun _ a => Returns a.
Global Instance outcome_bind : MBind outcome := fun _ _ f m =>
  match m with
  | Returns a => f a
  | Raises e => Raises e
  end.

(** The input checks the metric functions of scikit-learn share: the two
    arrays have the same length and hold at least one sample. *)
Definition check_reg_targets (y_true y_pred : list Q) : outcome unit :=
  if negb (length y_true =? length y_pred)%nat
  then Raises (ValueError "Found input variables with inconsistent numbers of samples")
  else if (length y_true =? 0)%nat
  then Raises (ValueError "Found array with 0 sample(s)")
  else Returns tt.

Definition average (xs : list Q) : Q := (Qsum xs / count xs)%Q.

Definition mean_absolute_error (y_true y_pred : list Q) : outcome Q :=
  _ ← check_reg_targets y_true y_pred;
  mret (average (zip_with (fun t p => Qabs (p - t))%Q y_true y_pred)).

Definition mean_squared_error (y_true y_pred : list Q) : outcome Q :=
  _ ← check_reg_targets y_true y_pred;
  mret (average (zip_with (fun t p => (t - p) * (t - p))%Q y_true y_pred)).

(** [np.finfo(np.float64).eps]. *)
Definition epsilon : Q := 1 # (2 ^ 52).

(** The array [np.abs(y_pred - y_true) / np.maximum(np.abs(y_true), epsilon)]
    that scikit-learn's [mean_absolute_percentage_error] averages. *)
Definition absolute_percentage_errors (y_true y_pred : list Q) : list Q :=
  zip_with (fun t p => Qabs (p - t) / Qmax (Qabs t) epsilon)%Q y_true y_pred.

Definition mean_absolute_percentage_error (y_true y_pred : list Q) : outcome Q :=
  _ ← check_reg_targets y_true y_pred;
  mret (average (absolute_percentage_errors y_true y_pred)).

(** The MAPE of the specification: the mean of [|y_pred - y_true| / y_true]
    over the rows with [y_true <> 0]. *)
Definition mape_spec (y_true y_pred : list Q) : Q :=
  average (omap (fun tp : Q * Q =>
                   if Qeq_bool (fst tp) 0 then None
                   else Some (Qabs (snd tp - fst tp) / fst tp)%Q)
                (zip y_true y_pred)).

Record Metrics : Type := mkMetrics {
  train_mae : Q;
  train_rmse : root;
  test_mae : Q;
  test_rmse : root;
  test_mape : Q
}.

Section Model.

(** The regressor: feature rows of type [X], a fitted model of type [M],
    [fit] and [predict] standing for [XGBRegressor.fit] and
    [XGBRegressor.predict]. *)
Context {X M : Type}.
Variable fit : list X -> list Q -> M.
Variable predict : M -> list X -> list Q.

Definition train_xgboost_model (X_train : list X) (y_train : list Q)
    (X_test : list X) (y_test : list Q) : outcome (M * Metrics) :=
  let model := fit X_train y_train in
  let y_pred_train := predict model X_train in
  let y_pred_test := predict model X_test in
  a ← mean_absolute_error y_train y_pred_train;
  b ← mean_squared_error y_train y_pred_train;
  c ← mean_absolute_error y_test y_pred_test;
  d ← mean_squared_error y_test y_pred_test;
  e ← mean_absolute_percentage_error y_test y_pred_test;
  mret (model, mkMetrics a (sqrt_of b) c (sqrt_of d) e).

End Model.

(** [TimeSeriesSplit(n_splits).split(X)] of scikit-learn, with its default
    gap of 0, test size and unbounded training size: the index lists of
    each fold. *)
Definition TimeSeriesSplit_split (n_splits : Z) (n_samples : nat)
  : outcome (list (list nat * list nat)) :=
  if (n_splits <=? 1)%Z
  then Raises (ValueError "k-fold cross-validation requires at least one train/test split")
  else
    let k := Z.to_nat n_splits in
    let n_folds := S k in
    let test_size := (n_samples / n_folds)%nat in
    if (n_samples <? n_folds)%nat
    then Raises (ValueError "Cannot have number of folds greater than the number of samples")
    else if (n_samples <=? test_size * k)%nat
    then Raises (ValueError "Too many splits for number of samples")
    else
      Returns ((fun j =>
                  let test_start := (n_samples - k * test_size + j * test_size)%nat in
                  (seq 0 test_start, seq test_start test_size)) <$> seq 0 k).

(** [X.iloc[idx]]. *)
Definition iloc {A : Type} (rows : list A) (idx : list nat) : list A :=
  omap (fun i => rows !! i) idx.

(** The training and validation rows of each fold of
    [cross_validate_model]. *)
Definition cross_validation_folds {A : Type} (rows : list A) (n_splits : Z)
  : outcome (list (list A * list A)) :=
  match TimeSeriesSplit_split n_splits (length rows) with
  | Raises e => Raises e
  | Returns splits =>
      Returns ((fun idx : list nat * list nat =>
                  (iloc rows (fst idx), iloc rows (snd idx))) <$> splits)
  end.

(** Chronological order of rows, with and without shared dates. *)
Definition not_after {A : Type} (date : A -> Z) (a b : A) : Prop :=
  (date a <= date b)%Z.
Definition before {A : Type} (date : A -> Z) (a b : A) : Prop :=
  (date a < date b)%Z.

End Train.

(** ** Forecast serving ([endpoints/forecast.py], [db/redis.py]) *)

Module DimProduct.
Record row : Type := mk { product_id : nat; sku : string }.
End DimProduct.

Module DimLocation.
Record row : Type := mk { location_id : nat; region : string }.
End DimLocation.

Module DimDate.
Record row : Type := mk { date_key : Z; date : Z }.
End DimDate.

Module FactForecast.
Record row : Type := mk {
  date_key : Z;
  product_id : nat;
  location_id : nat;
  forecast_units : Z;
  prediction_interval_low : Z;
  prediction_interval_high : Z;
  model_version : string
}.
End FactForecast.

Module FactSales.
Record row : Type := mk {
  date_key : Z;
  product_id : nat;
  location_id : nat;
  units_sold : Z
}.
End FactSales.

Module MLModelAssignment.
Record row : Type := mk { product_id : nat; location_id : nat; model_id : nat }.
End MLModelAssignment.

Module Forecast.

Record warehouse : Type := mkWarehouse {
  dim_product : list DimProduct.row;
  dim_location : list DimLocation.row;
  dim_date : list DimDate.row;
  fact_forecast : list FactForecast.row;
  fact_sales : list FactSales.row;
  ml_model_assignment : list MLModelAssignment.row;
  models : list MLModel.row
}.

Record ForecastPoint : Type := mkForecastPoint {
  date : string;
  forecast_units : Z;
  interval_low : Z;
  interval_high : Z;
  actual_units : option Z
}.

Record ForecastResponse : Type := mkForecastResponse {
  sku : string;
  region : string;
  model_version : string;
  model_name : string;
  metrics : string;
  forecasts : list ForecastPoint
}.

(** The Redis client: [None] before [init_redis]; otherwise the live keys
    with the response each holds (the JSON written by [cache_set] reads
    back as the response it was dumped from). *)
Abbreviation redis := (option (gmap string ForecastResponse)).

Definition cache_get (_redis : redis) (key : string) : option ForecastResponse :=
  match _redis with
  | None => None
  | Some store => store !! key
  end.

Definition cache_set (_redis : redis) (key : string) (value : ForecastResponse)
  : redis :=
  match _redis with
  | None => None
  | Some store => Some (<[key := value]> store)
  end.

Definition forecast_cache_key (sku region date : string) : string :=
  "forecast:" ++ sku ++ ":" ++ region ++ ":" ++ date.

(** [forecast_dates[k] = v] on a dict: a present key keeps its place and
    takes the new value, a new key goes last. *)
Fixpoint dict_set (k : Z) (v : ForecastPoint) (d : list (Z * ForecastPoint))
  : list (Z * ForecastPoint) :=
  match d with
  | [] => [(k, v)]
  | (k', v') :: rest =>
      if decide (k' = k) then (k, v) :: rest else (k', v') :: dict_set k v rest
  end.

(** [if row.date in forecast_dates: forecast_dates[row.date].actual_units = u]. *)
Definition set_actual (k u : Z) (d : list (Z * ForecastPoint))
  : list (Z * ForecastPoint) :=
  (fun '(k', p) =>
     if decide (k' = k)
     then (k', mkForecastPoint (date p) (forecast_units p) (interval_low p)
                               (interval_high p) (Some u))
     else (k', p)) <$> d.

Definition date_order (a b : Z * FactForecast.row) : Prop := (fst a <= fst b)%Z.

Global Instance date_order_dec (a b : Z * FactForecast.row) : Decision (date_order a b).
Proof. unfold date_order. apply _. Defined.

(** The forecast query: [fact_forecast] joined with [dim_date], for one
    product, location and model version, in the key range, by date. *)
Definition select_forecasts (db : warehouse) (product location : nat)
    (ver : string) (start_key end_key : Z) : list (Z * FactForecast.row) :=
  merge_sort date_order
    (f ← fact_forecast db;
     d ← dim_date db;
     if decide (FactForecast.date_key f = DimDate.date_key d
                /\ FactForecast.product_id f = product
                /\ FactForecast.location_id f = location
                /\ FactForecast.model_version f = ver
                /\ (start_key <= FactForecast.date_key f <= end_key)%Z)
     then [(DimDate.date d, f)] else []).

Definition select_actuals (db : warehouse) (product location : nat)
    (start_key end_key : Z) : list (Z * Z) :=
  s ← fact_sales db;
  d ← dim_date db;
  if decide (FactSales.date_key s = DimDate.date_key d
             /\ FactSales.product_id s = product
             /\ FactSales.location_id s = location
             /\ (start_key <= FactSales.date_key s <= end_key)%Z)
  then [(DimDate.date d, FactSales.units_sold s)] else [].

(** The assignment query: [ml_model_assignment] joined with [ml_model],
    for one product and location, restricted to models in status
    ['prod']. *)
Definition select_assignment (db : warehouse) (product location : nat)
  : list (MLModelAssignment.row * MLModel.row) :=
  a ← ml_model_assignment db;
  m ← models db;
  if decide (MLModelAssignment.model_id a = MLModel.id m
             /\ MLModelAssignment.product_id a = product
             /\ MLModelAssignment.location_id a = location
             /\ MLModel.status m = prod)
  then [(a, m)] else [].

Definition product_not_found (sku : string) : exn :=
  HTTPException HTTP_404_NOT_FOUND ("Product with SKU '" ++ sku ++ "' not found").

Definition location_not_found (region : string) : exn :=
  HTTPException HTTP_404_NOT_FOUND ("No locations found in region '" ++ region ++ "'").

(** The response of the endpoint for a pair without a servable model. *)
Definition no_model_assigned (sku region : string) : ForecastResponse :=
  mkForecastResponse sku region "none" "No model assigned" "{}" [].

(** The dict [forecast_dates] of the endpoint after its two loops: one
    point per forecast date, then the actual sales filled in. *)
Definition collect_forecasts (db : warehouse) (product location : nat) (ver : string)
    (start_key end_key : Z) (include_actuals : bool) : list (Z * ForecastPoint) :=
  let forecast_dates :=
    foldl (fun d '(day, f) =>
             dict_set day
               (mkForecastPoint (Calendar.isoformat day)
                  (FactForecast.forecast_units f)
                  (FactForecast.prediction_interval_low f)
                  (FactForecast.prediction_interval_high f) None) d)
          []
          (select_forecasts db product location ver start_key end_key) in
  if include_actuals
  then foldl (fun d '(day, units) => set_actual day units d)
             forecast_dates
             (select_actuals db product location start_key end_key)
  else forecast_dates.

(** The endpoint; [today] is [date.today()]. It returns the response, or
    the exception raised, and the cache after the call. *)
Definition get_forecast (today : Z) (db : warehouse) (_redis : redis)
    (sku region : string) (start_date end_date : option Z) (include_actuals : bool)
  : outcome ForecastResponse * redis :=
  let end_date := default (today + 14)%Z end_date in
  let start_date := default (today - 30)%Z start_date in
  let cache_key := forecast_cache_key sku region (Calendar.isoformat end_date) in
  match cache_get _redis cache_key with
  | Some cached => (Returns cached, _redis)
  | None =>
    match scalar_one_or_none
            (filter (fun p => DimProduct.sku p = sku) (dim_product db)) with
    | Raises e => (Raises e, _redis)
    | Returns None => (Raises (product_not_found sku), _redis)
    | Returns (Some product) =>
      match head (filter (fun l => DimLocation.region l = region) (dim_location db)) with
      | None => (Raises (location_not_found region), _redis)
      | Some location =>
        match head (select_assignment db (DimProduct.product_id product)
                                      (DimLocation.location_id location)) with
        | None => (Returns (no_model_assigned sku region), _redis)
        | Some (assignment, model) =>
          let start_key := Calendar.date_key start_date in
          let end_key := Calendar.date_key end_date in
          let forecast_dates :=
            collect_forecasts db (DimProduct.product_id product)
              (DimLocation.location_id location) (MLModel.version model)
              start_key end_key include_actuals in
          let response :=
            mkForecastResponse sku region (MLModel.version model) (MLModel.model_name model)
                               (MLModel.metrics_json model) (snd <$> forecast_dates) in
          (Returns response, cache_set _redis cache_key response)
        end
      end
    end
  end.

(** The key under which a call reads and writes the cache. *)
Definition cache_key_of (today : Z) (sku region : string) (end_date : option Z) : string :=
  forecast_cache_key sku region (Calendar.isoformat (default (today + 14)%Z end_date)).

End Forecast.

(** ** The distributed lock ([db/redis.py]) *)
Module Lock.

(** The Redis keyspace the lock functions work on: [None] before
    [init_redis], otherwise the live keys with their values. *)
Abbreviation keyspace := (option (gmap string string)).

Definition lock_key (lock_name : string) : string := "lock:" ++ lock_name.

(** [SET key "1" NX EX timeout]: the key is set when it is not live. The
    result is [true] when the key was set; when it was not, the client
    returns nothing, which a caller reads as false. *)
Definition acquire_lock (_redis : keyspace) (lock_name : string) : bool * keyspace :=
  match _redis with
  | None => (false, None)
  | Some store =>
      let key := lock_key lock_name in
      match store !! key with
      | Some _ => (false, Some store)
      | None => (true, Some (<[key := "1"]> store))
      end
  end.

(** [DEL key], whoever holds the lock. *)
Definition release_lock (_redis : keyspace) (lock_name : string) : bool * keyspace :=
  match _redis with
  | None => (false, None)
  | Some store => (true, Some (delete (lock_key lock_name) store))
  end.

End Lock.

(** ** Authentication and roles ([core/security.py]) *)
Module Security.

Inductive Role : Type := ADMIN | ANALYST | VIEWER.

Global Instance Role_eq_dec : EqDecision Role.
Proof. solve_decision. Defined.

(** [Role.value]. *)
Definition value (r : Role) : string :=
  match r with
  | ADMIN => "admin"
  | ANALYST => "analyst"
  | VIEWER => "viewer"
  end.

(** The fields of the token payload the checks read; [type] is ["access"]
    or ["refresh"]. *)
Record TokenPayload : Type := mkPayload {
  sub : string;
  email : string;
  role : Role;
  type : string
}.

Definition HTTP_401_UNAUTHORIZED : nat := 401.
Definition HTTP_403_FORBIDDEN : nat := 403.

Section Checks.

(** [decode_token]: the JWT library verifies the signature and the expiry
    and gives the payload, or the function raises the 401 for an invalid
    or expired token. *)
Variable decode_token : string -> outcome TokenPayload.

Definition get_current_user (credentials : string) : outcome TokenPayload :=
  match decode_token credentials with
  | Raises e => Raises e
  | Returns payload =>
      if decide (type payload <> "access")
      then Raises (HTTPException HTTP_401_UNAUTHORIZED "Invalid token type")
      else Returns payload
  end.

(** [require_role] for the given allowed roles: the dependency
    [role_checker], which runs after [get_current_user]. *)
Definition require_role (allowed_roles : list Role) (credentials : string)
  : outcome TokenPayload :=
  match get_current_user credentials with
  | Raises e => Raises e
  | Returns current_user =>
      if decide (role current_user ∉ allowed_roles)
      then Raises (HTTPException HTTP_403_FORBIDDEN
                     ("Role '" ++ value (role current_user)
                      ++ "' not authorized for this action"))
      else Returns current_user
  end.

Definition require_admin := require_role [ADMIN].
Definition require_analyst := require_role [ADMIN; ANALYST].
Definition require_viewer := require_role [ADMIN; ANALYST; VIEWER].

End Checks.

End Security.

(** ** User management ([endpoints/admin.py]) *)

(** A row of [auth_user]: the columns the endpoints read or write. *)
Module AuthUser.
Record row : Type := mk {
  id : nat;
  email : string;
  password_hash : string;
  full_name : string;
  role : string;
  is_active : bool;
  created_at : Z
}.
End AuthUser.

Module Users.

(** The audit record of a user-management action, its metadata apart. *)
Record audit : Type := mkAudit {
  audit_user_id : nat;
  audit_action : string;
  audit_entity_type : string;
  audit_entity_id : string
}.

(** The tables the endpoints touch; [auth_user_seq] is the auto-increment
    counter of [auth_user.id]. *)
Record state : Type := mkState {
  auth_user : list AuthUser.row;
  auth_user_seq : nat;
  audit_log : list audit
}.

Definition empty_state : state := mkState [] 1 [].

Record CreateUserRequest : Type := mkCreate {
  new_email : string;
  new_password : string;
  new_full_name : string;
  new_role : string
}.

Record UpdateUserRequest : Type := mkUpdate {
  upd_full_name : option string;
  upd_role : option string;
  upd_is_active : option bool
}.

Definition HTTP_409_CONFLICT : nat := 409.

Definition valid_roles : list string := ["admin"; "analyst"; "viewer"].

Definition user_not_found (user_id : nat) : exn :=
  HTTPException HTTP_404_NOT_FOUND ("User " ++ pretty user_id ++ " not found").

(** A user row with [is_active] cleared. *)
Definition deactivated (u : AuthUser.row) : AuthUser.row :=
  AuthUser.mk (AuthUser.id u) (AuthUser.email u) (AuthUser.password_hash u)
              (AuthUser.full_name u) (AuthUser.role u) false (AuthUser.created_at u).

(** The flush of a mutated ORM object: the row with its primary key takes
    the object's columns. *)
Definition write_user (user : AuthUser.row) (tbl : list AuthUser.row)
  : list AuthUser.row :=
  (fun u => if decide (AuthUser.id u = AuthUser.id user) then user else u) <$> tbl.

Section Endpoints.

(** [hash_password]: the bcrypt hash of the password library. *)
Variable hash_password : string -> string.

(** [create_user]; [now] is the server time the insert stamps on
    [created_at]. As for [promote_model], an exception leaves the session
    uncommitted. *)
Definition create_user (body : CreateUserRequest) (current_user : Registry.TokenPayload)
    (now : Z) (db : state) : outcome AuthUser.row * state :=
  match scalar_one_or_none
          (filter (fun u => AuthUser.email u = new_email body) (auth_user db)) with
  | Raises e => (Raises e, db)
  | Returns (Some _) =>
      (Raises (HTTPException HTTP_409_CONFLICT "Email already registered"), db)
  | Returns None =>
      if decide (new_role body ∉ valid_roles)
      then (Raises (HTTPException HTTP_400_BAD_REQUEST
                      "Invalid role. Must be: admin, analyst, or viewer"), db)
      else
        let user :=
          AuthUser.mk (auth_user_seq db) (new_email body)
                      (hash_password (new_password body)) (new_full_name body)
                      (new_role body) true now in
        let entry :=
          mkAudit (Registry.sub current_user) "create_user" "auth_user"
                  (pretty (AuthUser.id user)) in
        (Returns user,
         mkState (auth_user db ++ [user]) (S (auth_user_seq db))
                 (audit_log db ++ [entry]))
  end.

Definition update_user (user_id : nat) (body : UpdateUserRequest)
    (current_user : Registry.TokenPayload) (db : state)
  : outcome AuthUser.row * state :=
  match scalar_one_or_none
          (filter (fun u => AuthUser.id u = user_id) (auth_user db)) with
  | Raises e => (Raises e, db)
  | Returns None => (Raises (user_not_found user_id), db)
  | Returns (Some user) =>
      let name := default (AuthUser.full_name user) (upd_full_name body) in
      let checked_role :=
        match upd_role body with
        | None => Returns (AuthUser.role user)
        | Some r =>
            if decide (r ∉ valid_roles)
            then Raises (HTTPException HTTP_400_BAD_REQUEST "Invalid role")
            else Returns r
        end in
      match checked_role with
      | Raises e => (Raises e, db)
      | Returns r =>
          let active := default (AuthUser.is_active user) (upd_is_active body) in
          let user' :=
            AuthUser.mk (AuthUser.id user) (AuthUser.email user)
                        (AuthUser.password_hash user) name r active
                        (AuthUser.created_at user) in
          let entry :=
            mkAudit (Registry.sub current_user) "update_user" "auth_user"
                    (pretty user_id) in
          (Returns user',
           mkState (write_user user' (auth_user db)) (auth_user_seq db)
                   (audit_log db ++ [entry]))
      end
  end.

(** [delete_user]: a soft delete. *)
Definition delete_user (user_id : nat) (current_user : Registry.TokenPayload)
    (db : state) : outcome unit * state :=
  if decide (Registry.sub current_user = user_id)
  then (Raises (HTTPException HTTP_400_BAD_REQUEST "Cannot delete your own account"), db)
  else
    match scalar_one_or_none
            (filter (fun u => AuthUser.id u = user_id) (auth_user db)) with
    | Raises e => (Raises e, db)
    | Returns None => (Raises (user_not_found user_id), db)
    | Returns (Some user) =>
        let user' :=
          AuthUser.mk (AuthUser.id user) (AuthUser.email user)
                      (AuthUser.password_hash user) (AuthUser.full_name user)
                      (AuthUser.role user) false (AuthUser.created_at user) in
        let entry :=
          mkAudit (Registry.sub current_user) "delete_user" "auth_user"
                  (pretty user_id) in
        (Returns tt,
         mkState (write_user user' (auth_user db)) (auth_user_seq db)
                 (audit_log db ++ [entry]))
    end.

(** The tables the three endpoints build from the empty ones. *)
Inductive reachable : state -> Prop :=
| reach_empty : reachable empty_state
| reach_create body user now db :
    reachable db -> reachable (snd (create_user body user now db))
| reach_update user_id body user db :
    reachable db -> reachable (snd (update_user user_id body user db))
| reach_delete user_id user db :
    reachable db -> reachable (snd (delete_user user_id user db)).

End Endpoints.

(** [order_by(AuthUser.created_at.desc())]. *)
Definition newest_first (a b : AuthUser.row) : Prop :=
  (AuthUser.created_at b <= AuthUser.created_at a)%Z.

Global Instance newest_first_dec (a b : AuthUser.row) : Decision (newest_first a b).
Proof. unfold newest_first. apply _. Defined.

(** [list_users]: the active users, or all of them, newest first. *)
Definition list_users (include_inactive : bool) (db : state) : list AuthUser.row :=
  merge_sort newest_first
    (if include_inactive then auth_user db
     else filter (fun u => AuthUser.is_active u = true) (auth_user db)).

End Users.

(** ** Concrete data for the examples *)
Module Scenario.

Import Registry.

Definition admin : TokenPayload := mkToken 1 "admin@indigoglass.example".

(** Two registered versions of one model, the first one promoted. *)
Definition two_versions : registry :=
  snd (promote_model (mkPromoteReq "demand_forecast" "v1") admin 1000
         (snd (register_model "demand_forecast" "v2" "{}"
                 (snd (register_model "demand_forecast" "v1" "{}" empty_registry))))).

(** A warehouse with one product, one location, forecasts of version [v1]
    for two days, and the pair assigned to model 3 in the given status. *)
Definition serving_db (st : model_status) : Forecast.warehouse :=
  Forecast.mkWarehouse
    [DimProduct.mk 1 "SKU-1"]
    [DimLocation.mk 7 "EU"]
    [DimDate.mk 20240110 19732; DimDate.mk 20240111 19733]
    [FactForecast.mk 20240110 1 7 50 40 60 "v1";
     FactForecast.mk 20240111 1 7 55 45 65 "v1"]
    [FactSales.mk 20240110 1 7 48]
    [MLModelAssignment.mk 1 7 3]
    [MLModel.mk 3 "demand_forecast" "v1" "{}" st None None].


(** Product [P1] at location [L1] on [n] consecutive days from 2024-01-01,
    with the quantities 100, 105, ... *)
Definition daily_sales (n : nat) : list Features.Observation :=
  (fun i : nat =>
     Features.mkObservation (19723 + Z.of_nat i) "P1" "L1"
                            (inject_Z (100 + 5 * Z.of_nat i))) <$> seq 0 n.

Definition forty_days : list Features.Observation := daily_sales 40.

(** Thirty days, and the same days with the quantities of the last two
    days changed and a thirty-first day appended. *)
Definition thirty_days : list Features.Observation := daily_sales 30.

Definition thirty_days_revised : list Features.Observation :=
  daily_sales 28
  ++ [Features.mkObservation 19751 "P1" "L1" 7;
      Features.mkObservation 19752 "P1" "L1" 9;
      Features.mkObservation 19753 "P1" "L1" 11].

(** Twenty-eight days in date order, then the rows of day 30 and of day 29
    in this order, day 30 with the quantity [q]. *)
Definition late_row_first (q : Q) : list Features.Observation :=
  daily_sales 28
  ++ [Features.mkObservation 19752 "P1" "L1" q;
      Features.mkObservation 19751 "P1" "L1" 240].

Definition no_holidays (years : list Z) : list Z := [].

(** New Year's Day and Martin Luther King Jr. Day of the years asked for. *)
Definition two_holidays (years : list Z) : list Z :=
  if bool_decide (2024%Z ∈ years) then [19723; 19737]%Z else [].

(** A regressor that returns its single feature as the prediction. *)
Definition echo_fit (X_train : list Q) (y_train : list Q) : unit := tt.
Definition echo_predict (model : unit) (X : list Q) : list Q := X.

(** Row dates of a frame in which two rows share a date, and of one in
    which every row has its own date. *)
Definition shared_dates : list Z := [1; 2; 2; 3]%Z.
Definition distinct_dates : list Z := [1; 2; 3; 4]%Z.

(** The response for the range that starts on 2024-01-11: one row. *)
Definition late_response : Forecast.ForecastResponse :=
  Forecast.mkForecastResponse "SKU-1" "EU" "v1" "demand_forecast" "{}"
    [Forecast.mkForecastPoint "2024-01-11" 55 45 65 None].

(** The day the example calls are made: 2024-01-08. *)
Definition today : Z := 19730.

(** The password hash of the examples. *)
Definition demo_hash (password : string) : string := "bcrypt:" ++ password.

(** Two users: the administrator of the examples and an analyst. *)
Definition two_users : Users.state :=
  snd (Users.create_user demo_hash
         (Users.mkCreate "analyst@indigoglass.example" "s3cret" "An Analyst" "analyst")
         admin 200
         (snd (Users.create_user demo_hash
                 (Users.mkCreate "admin@indigoglass.example" "r00t" "The Admin" "admin")
                 admin 100 Users.empty_state))).

(** A token decoder that knows three tokens: an analyst's access token, an
    admin's access token and the admin's refresh token. *)
Definition demo_decode (token : string) : outcome Security.TokenPayload :=
  if decide (token = "analyst-access")
  then Returns (Security.mkPayload "2" "analyst@indigoglass.example"
                                   Security.ANALYST "access")
  else if decide (token = "admin-access")
  then Returns (Security.mkPayload "1" "admin@indigoglass.example"
                                   Security.ADMIN "access")
  else if decide (token = "admin-refresh")
  then Returns (Security.mkPayload "1" "admin@indigoglass.example"
                                   Security.ADMIN "refresh")
  else Raises (HTTPException Security.HTTP_401_UNAUTHORIZED "Invalid or expired token").


(** The registry after the second version is promoted in its turn: the
    first version is archived. *)
Definition second_promoted : registry :=
  snd (promote_model (mkPromoteReq "demand_forecast" "v2") admin 2000 two_versions).


End Scenario.

(** * Properties *)

(** ** Lists with a unique column *)
Section UniqueColumn.

Context {A K : Type} `{EqDecision K} (f : A -> K).

(** Two rows with the same value of a unique column are the same row. *)
Lemma NoDup_fmap_elem_inj (l : list A) (x y : A) :
  NoDup (f <$> l) -> x ∈ l -> y ∈ l -> f x = f y -> x = y.
Proof.
  intros Hnd Hx Hy Heq.
  apply list_elem_of_lookup in Hx as [i Hi].
  apply list_elem_of_lookup in Hy as [j Hj].
  assert (i = j) as ->.
  { eapply NoDup_lookup; [exact Hnd| |].
    - rewrite list_lookup_fmap, Hi. reflexivity.
    - rewrite list_lookup_fmap, Hj. simpl. congruence. }
  congruence.
Qed.

(** A row is the only one with its value of a unique column. *)
Lemma filter_unique (l : list A) (x : A) :
  NoDup (f <$> l) -> x ∈ l -> filter (fun y => f y = f x) l = [x].
Proof.
  induction l as [|y l IH]; intros Hnd Hin.
  - inversion Hin.
  - rewrite fmap_cons in Hnd. apply NoDup_cons in Hnd as [Hy Hnd].
    rewrite filter_cons. apply elem_of_cons in Hin as [->|Hin].
    + rewrite decide_True by done. f_equal.
      destruct (filter _ l) as [|z zs] eqn:Hf; [reflexivity|exfalso].
      assert (Hz : z ∈ z :: zs) by left. rewrite <- Hf in Hz.
      apply list_elem_of_filter in Hz as [Hz1 Hz2].
      apply Hy. rewrite <- Hz1. by apply list_elem_of_fmap_2.
    + rewrite decide_False; [by apply IH|].
      intros Heq. apply Hy. rewrite Heq. by apply list_elem_of_fmap_2.
Qed.

End UniqueColumn.
(** * The model registry *)
Section RegistryProofs.

Import Registry Scenario.

Implicit Types (tbl : list MLModel.row) (m target : MLModel.row) (db : registry).

Lemma length_filter_fmap_ext {A : Type} (P Q : A -> Prop)
    `{forall x, Decision (P x)} `{forall x, Decision (Q x)} (f : A -> A) (l : list A) :
  (forall x, x ∈ l -> P (f x) <-> Q x) ->
  length (filter P (f <$> l)) = length (filter Q l).
Proof.
  induction l as [|x l IH]; intros Hext; [reflexivity|].
  rewrite fmap_cons, !filter_cons.
  assert (Hx : P (f x) <-> Q x) by (apply Hext; left).
  assert (IH' : length (filter P (f <$> l)) = length (filter Q l)).
  { apply IH. intros y Hy. apply Hext. right. exact Hy. }
  destruct (decide (P (f x))), (decide (Q x)); simpl; tauto || lia.
Qed.

Lemma NoDup_id_inj tbl m target :
  NoDup (MLModel.id <$> tbl) -> m ∈ tbl -> target ∈ tbl ->
  MLModel.id m = MLModel.id target -> m = target.
Proof.
  intros Hnd Hm Ht Heq.
  apply list_elem_of_lookup in Hm as [i Hi].
  apply list_elem_of_lookup in Ht as [j Hj].
  assert (i = j) as ->.
  { eapply NoDup_lookup; [exact Hnd| |].
    - rewrite list_lookup_fmap, Hi. reflexivity.
    - rewrite list_lookup_fmap, Hj. simpl. congruence. }
  congruence.
Qed.

Lemma length_filter_id tbl target :
  NoDup (MLModel.id <$> tbl) -> target ∈ tbl ->
  length (filter (fun m => MLModel.id m = MLModel.id target) tbl) = 1.
Proof.
  induction tbl as [|x tbl IH]; intros Hnd Hin.
  - inversion Hin.
  - rewrite fmap_cons in Hnd. apply NoDup_cons in Hnd as [Hx Hnd].
    rewrite filter_cons. apply elem_of_cons in Hin as [->|Hin].
    + rewrite decide_True by reflexivity. simpl. f_equal.
      destruct (filter _ tbl) as [|y ys] eqn:Hf; [reflexivity|exfalso].
      assert (Hy : y ∈ filter (fun m => MLModel.id m = MLModel.id x) tbl)
        by (rewrite Hf; left).
      apply list_elem_of_filter in Hy as [Hy1 Hy2].
      apply Hx. rewrite <- Hy1. by apply list_elem_of_fmap_2.
    + rewrite decide_False; [by apply IH|].
      intros Heq. apply Hx. rewrite Heq. by apply list_elem_of_fmap_2.
Qed.

(** The four ways [promote_model] ends. *)
Lemma promote_model_cases body user now db :
  let name := req_model_name body in
  let ver := req_version body in
  let found :=
    filter (fun m => MLModel.model_name m = name /\ MLModel.version m = ver)
           (ml_model db) in
  (found = [] /\ promote_model body user now db = (Raises (NotFoundError name ver), db))
  \/ (exists m, found = [m] /\ MLModel.status m = prod
        /\ promote_model body user now db = (Raises AlreadyPromotedError, db))
  \/ (exists m, found = [m] /\ MLModel.status m <> prod
        /\ promote_model body user now db =
           (Returns (mkPromoteResp name ver (MLModel.status m) prod now),
            mkRegistry (promoted_table name (MLModel.id m) now (email user) (ml_model db))
                       (ml_model_seq db)
                       (auth_audit_log db ++
                        [mkAudit (sub user) "promote_model" "ml_model"
                                 (name ++ ":" ++ ver) (MLModel.status m) prod])))
  \/ (2 <= length found
        /\ promote_model body user now db = (Raises MultipleResultsFound, db)).
Proof.
  intros name ver found. unfold promote_model. fold name ver found.
  destruct found as [|m [|m' rest]]; simpl.
  - left. done.
  - destruct (decide (MLModel.status m = prod)).
    + right; left. by exists m.
    + right; right; left. by exists m.
  - right; right; right. split; [lia|done].
Qed.

Lemma archive_prod_id name m : MLModel.id (archive_prod name m) = MLModel.id m.
Proof. unfold archive_prod. by case_decide. Qed.

Lemma archive_prod_key name m :
  MLModel.model_name (archive_prod name m) = MLModel.model_name m
  /\ MLModel.version (archive_prod name m) = MLModel.version m.
Proof. unfold archive_prod. by case_decide. Qed.

Lemma set_promoted_id t now e m : MLModel.id (set_promoted t now e m) = MLModel.id m.
Proof. unfold set_promoted. by case_decide. Qed.

Lemma set_promoted_key t now e m :
  MLModel.model_name (set_promoted t now e m) = MLModel.model_name m
  /\ MLModel.version (set_promoted t now e m) = MLModel.version m.
Proof. unfold set_promoted. by case_decide. Qed.

Lemma promoted_table_ids name t now e tbl :
  MLModel.id <$> promoted_table name t now e tbl = MLModel.id <$> tbl.
Proof.
  unfold promoted_table. rewrite <- !list_fmap_compose.
  apply list_fmap_ext. intros i m _. simpl.
  by rewrite set_promoted_id, archive_prod_id.
Qed.

Lemma promoted_table_keys name t now e tbl :
  key <$> promoted_table name t now e tbl = key <$> tbl.
Proof.
  unfold promoted_table. rewrite <- !list_fmap_compose.
  apply list_fmap_ext. intros i m _. unfold key. simpl.
  destruct (set_promoted_key t now e (archive_prod name m)) as [-> ->].
  by destruct (archive_prod_key name m) as [-> ->].
Qed.

(** After a promotion the promoted row is the one production row of its
    name. *)
Lemma prod_rows_promoted tbl target now e :
  NoDup (MLModel.id <$> tbl) -> target ∈ tbl ->
  length (prod_rows (MLModel.model_name target)
            (promoted_table (MLModel.model_name target) (MLModel.id target) now e tbl)) = 1.
Proof.
  intros Hnd Hin. rewrite <- (length_filter_id tbl target Hnd Hin).
  unfold prod_rows, promoted_table. rewrite <- list_fmap_compose.
  apply length_filter_fmap_ext. intros m Hm. simpl.
  unfold set_promoted. rewrite archive_prod_id.
  destruct (decide (MLModel.id m = MLModel.id target)) as [Heq|Hne]; simpl.
  - assert (m = target) as -> by eauto using NoDup_id_inj.
    destruct (archive_prod_key (MLModel.model_name target) target) as [-> _]. tauto.
  - unfold archive_prod. case_decide as Hp; simpl; [|tauto].
    split; [intros [_ ?]; discriminate|tauto].
Qed.

(** A promotion leaves the production rows of every other name alone. *)
Lemma prod_rows_other tbl target now e name :
  NoDup (MLModel.id <$> tbl) -> target ∈ tbl -> name <> MLModel.model_name target ->
  length (prod_rows name
            (promoted_table (MLModel.model_name target) (MLModel.id target) now e tbl))
  = length (prod_rows name tbl).
Proof.
  intros Hnd Hin Hname.
  unfold prod_rows, promoted_table. rewrite <- list_fmap_compose.
  apply length_filter_fmap_ext. intros m Hm. simpl.
  unfold set_promoted. rewrite archive_prod_id.
  destruct (decide (MLModel.id m = MLModel.id target)) as [Heq|Hne]; simpl.
  - assert (m = target) as -> by eauto using NoDup_id_inj.
    destruct (archive_prod_key (MLModel.model_name target) target) as [-> _].
    split; intros [? _]; congruence.
  - unfold archive_prod. case_decide as Hp; simpl; [|tauto].
    destruct Hp as [Hp _]. split; intros [? _]; congruence.
Qed.

Lemma well_formed_empty : well_formed empty_registry.
Proof.
  split; simpl.
  - constructor.
  - intros m Hm. inversion Hm.
  - constructor.
  - intros name. unfold prod_rows. simpl. lia.
Qed.

Lemma found_elem (name ver : string) tbl m :
  filter (fun m => MLModel.model_name m = name /\ MLModel.version m = ver) tbl = [m] ->
  m ∈ tbl /\ MLModel.model_name m = name /\ MLModel.version m = ver.
Proof.
  intros Hf.
  assert (Hm : m ∈ filter (fun m => MLModel.model_name m = name /\ MLModel.version m = ver) tbl)
    by (rewrite Hf; left).
  apply list_elem_of_filter in Hm. tauto.
Qed.

Lemma well_formed_promote body user now db :
  well_formed db -> well_formed (snd (promote_model body user now db)).
Proof.
  intros Hwf.
  destruct (promote_model_cases body user now db)
    as [[_ ->]|[(m & _ & _ & ->)|[(m & Hf & Hst & ->)|[_ ->]]]]; try exact Hwf.
  apply found_elem in Hf as (Hin & Hname & Hver).
  destruct Hwf as [Hpk Hseq Huv Hone]. split; simpl.
  - by rewrite promoted_table_ids.
  - intros m' Hm'. unfold promoted_table in Hm'.
    apply list_elem_of_fmap in Hm' as (m1 & -> & Hm1).
    apply list_elem_of_fmap in Hm1 as (m2 & -> & Hm2).
    rewrite set_promoted_id, archive_prod_id. by apply Hseq.
  - by rewrite promoted_table_keys.
  - intros name. rewrite <- Hname.
    destruct (decide (name = MLModel.model_name m)) as [->|Hne].
    + by rewrite prod_rows_promoted.
    + rewrite prod_rows_other by done. apply Hone.
Qed.

Lemma well_formed_register name ver metrics db :
  well_formed db -> well_formed (snd (register_model name ver metrics db)).
Proof.
  intros Hwf. unfold register_model.
  case_decide as Hex; [exact Hwf|]. simpl.
  destruct Hwf as [Hpk Hseq Huv Hone]. split; simpl.
  - rewrite fmap_app. simpl. apply NoDup_app. split; [done|]. split.
    + intros x Hx Hx'. apply list_elem_of_fmap in Hx as (m & -> & Hm).
      apply list_elem_of_singleton in Hx'. apply Hseq in Hm. lia.
    + apply NoDup_singleton.
  - intros m Hm. apply elem_of_app in Hm as [Hm|Hm].
    + apply Hseq in Hm. lia.
    + apply list_elem_of_singleton in Hm as ->. simpl. lia.
  - rewrite fmap_app. simpl. apply NoDup_app. split; [done|]. split.
    + intros x Hx Hx'. apply list_elem_of_fmap in Hx as (m & -> & Hm).
      apply list_elem_of_singleton in Hx'. apply Hex.
      apply Exists_exists. exists m. unfold key in Hx'. simpl in Hx'.
      split; [done|]. by inversion Hx'.
    + apply NoDup_singleton.
  - intros name'. unfold prod_rows. rewrite filter_app. rewrite length_app.
    rewrite filter_cons_False by (simpl; intros [_ ?]; discriminate).
    simpl. specialize (Hone name'). unfold prod_rows in Hone. lia.
Qed.

Lemma reachable_well_formed db : reachable db -> well_formed db.
Proof.
  induction 1; auto using well_formed_empty, well_formed_register, well_formed_promote.
Qed.

Lemma reachable_run_promotes name calls db :
  reachable db -> reachable (run_promotes name calls db).
Proof.
  revert db. induction calls as [|[[ver user] now] calls IH]; intros db Hdb; simpl.
  - exact Hdb.
  - apply IH. by apply reach_promote.
Qed.


Lemma filter_key_unique tbl m :
  NoDup (key <$> tbl) -> m ∈ tbl ->
  filter (fun x => MLModel.model_name x = MLModel.model_name m
                   /\ MLModel.version x = MLModel.version m) tbl = [m].
Proof.
  induction tbl as [|x tbl IH]; intros Hnd Hin.
  - inversion Hin.
  - rewrite fmap_cons in Hnd. apply NoDup_cons in Hnd as [Hx Hnd].
    rewrite filter_cons. apply elem_of_cons in Hin as [->|Hin].
    + rewrite decide_True by done. f_equal.
      destruct (filter _ tbl) as [|y ys] eqn:Hf; [reflexivity|exfalso].
      assert (Hy : y ∈ y :: ys) by left. rewrite <- Hf in Hy.
      apply list_elem_of_filter in Hy as [[Hy1 Hy2] Hy3].
      apply Hx. apply list_elem_of_fmap. exists y. unfold key. by rewrite Hy1, Hy2.
    + rewrite decide_False; [by apply IH|].
      intros [H1 H2]. apply Hx. apply list_elem_of_fmap. exists m.
      unfold key. by rewrite H1, H2.
Qed.

Lemma promoted_table_lookup name t now e tbl i :
  promoted_table name t now e tbl !! i
  = (fun m => set_promoted t now e (archive_prod name m)) <$> tbl !! i.
Proof.
  unfold promoted_table. rewrite !list_lookup_fmap. by destruct (tbl !! i).
Qed.

Lemma promoted_table_found name ver t now e tbl m :
  filter (fun x => MLModel.model_name x = name /\ MLModel.version x = ver) tbl = [m] ->
  filter (fun x => MLModel.model_name x = name /\ MLModel.version x = ver)
         (promoted_table name t now e tbl)
  = [set_promoted t now e (archive_prod name m)].
Proof.
  intros Hf. unfold promoted_table. rewrite <- list_fmap_compose.
  change [set_promoted t now e (archive_prod name m)]
    with ((set_promoted t now e ∘ archive_prod name) <$> [m]).
  rewrite <- Hf. clear Hf.
  induction tbl as [|x tbl IH]; [reflexivity|].
  rewrite fmap_cons, !filter_cons, IH. simpl.
  destruct (set_promoted_key t now e (archive_prod name x)) as [-> ->].
  destruct (archive_prod_key name x) as [-> ->].
  by case_decide.
Qed.


(** C1. Promotion invariant. In every registry that [register_model] and
    [promote_model] build, and after every further sequence of promotions
    of versions of one model name, at most one model of that name is in
    status [prod]. A successful promotion, on any table, turns the target
    into [prod] with [promoted_at] and [promoted_by] stamped, archives
    every other row of the name that was [prod] and leaves all other rows
    as they were; with a primary key on [id] it leaves exactly one [prod]
    row of the name. *)
Theorem promotion_keeps_one_prod :
  (forall db name calls,
     reachable db ->
     length (prod_rows name (ml_model (run_promotes name calls db))) <= 1)
  /\ (forall body user now db resp db',
        promote_model body user now db = (Returns resp, db') ->
        exists target,
          target ∈ ml_model db
          /\ MLModel.model_name target = req_model_name body
          /\ MLModel.version target = req_version body
          /\ previous_status resp = MLModel.status target
          /\ new_status resp = prod
          /\ length (ml_model db') = length (ml_model db)
          /\ (forall i m, ml_model db !! i = Some m ->
                exists m', ml_model db' !! i = Some m'
                  /\ (MLModel.id m = MLModel.id target ->
                        MLModel.status m' = prod
                        /\ MLModel.promoted_at m' = Some now
                        /\ MLModel.promoted_by m' = Some (email user))
                  /\ (MLModel.id m <> MLModel.id target ->
                      MLModel.model_name m = req_model_name body ->
                      MLModel.status m = prod ->
                        MLModel.status m' = archived
                        /\ MLModel.promoted_at m' = MLModel.promoted_at m
                        /\ MLModel.promoted_by m' = MLModel.promoted_by m)
                  /\ (MLModel.id m <> MLModel.id target ->
                      ~ (MLModel.model_name m = req_model_name body
                         /\ MLModel.status m = prod) ->
                        m' = m))
          /\ (NoDup (MLModel.id <$> ml_model db) ->
                length (prod_rows (req_model_name body) (ml_model db')) = 1)).
Proof.
  split.
  - intros db name calls Hdb.
    apply reachable_well_formed, reachable_run_promotes, Hdb.
  - intros body user now db resp db' Hp.
    destruct (promote_model_cases body user now db)
      as [[_ He]|[(m & _ & _ & He)|[(m & Hf & Hst & He)|[_ He]]]];
      rewrite He in Hp; try discriminate.
    injection Hp as <- <-. exists m.
    destruct (found_elem _ _ _ _ Hf) as (Hin & Hname & Hver).
    split; [done|]. split; [done|]. split; [done|]. split; [done|]. split; [done|].
    simpl. split; [|split].
    + unfold promoted_table. by rewrite !length_fmap.
    + intros i x Hx. rewrite promoted_table_lookup, Hx. simpl.
      eexists. split; [reflexivity|].
      unfold set_promoted. rewrite archive_prod_id.
      split; [|split].
      * intros Heq. by rewrite decide_True.
      * intros Hne Hn Hs. rewrite decide_False by done.
        unfold archive_prod. by rewrite decide_True.
      * intros Hne Hnot. rewrite decide_False by done.
        unfold archive_prod. by rewrite decide_False.
    + intros Hnd. rewrite <- Hname. by apply prod_rows_promoted.
Qed.

Lemma promotion_keeps_one_prod_witness :
  length (prod_rows "demand_forecast"
            (ml_model (run_promotes "demand_forecast"
                         [("v2", admin, 2000%Z); ("v1", admin, 3000%Z)] two_versions))) <= 1
  /\ exists target,
       target ∈ ml_model two_versions
       /\ MLModel.version target = "v2"
       /\ length (prod_rows "demand_forecast"
                    (ml_model (snd (promote_model (mkPromoteReq "demand_forecast" "v2")
                                      admin 2000 two_versions)))) = 1.
Proof.
  split.
  - apply (proj1 promotion_keeps_one_prod).
    unfold two_versions. apply reach_promote, reach_register, reach_register, reach_empty.
  - destruct (proj2 promotion_keeps_one_prod
                (mkPromoteReq "demand_forecast" "v2") admin 2000%Z two_versions
                _ _ eq_refl)
      as (target & Hin & _ & Hver & _ & _ & _ & _ & Hone).
    exists target. split; [exact Hin|]. split; [exact Hver|].
    apply Hone. apply (bool_decide_unpack _). vm_compute. reflexivity.
Defined.


(** C6. [promote_model] rejects an unknown (model_name, version) pair with
    [NotFoundError] and a target that is already [prod] with
    [AlreadyPromotedError]; in both cases the registry after the call is
    the registry before it. A promotion repeated right after a successful
    one is rejected with [AlreadyPromotedError] and changes nothing. *)
Theorem promote_rejections_keep_state :
  (forall body user now db,
     (forall m, m ∈ ml_model db ->
        ~ (MLModel.model_name m = req_model_name body
           /\ MLModel.version m = req_version body)) ->
     promote_model body user now db
     = (Raises (NotFoundError (req_model_name body) (req_version body)), db))
  /\ (forall body user now db target,
        NoDup (key <$> ml_model db) ->
        target ∈ ml_model db ->
        MLModel.model_name target = req_model_name body ->
        MLModel.version target = req_version body ->
        MLModel.status target = prod ->
        promote_model body user now db = (Raises AlreadyPromotedError, db))
  /\ (forall body user now user' now' db resp db',
        promote_model body user now db = (Returns resp, db') ->
        promote_model body user' now' db' = (Raises AlreadyPromotedError, db')).
Proof.
  split; [|split].
  - intros body user now db Hnone.
    destruct (promote_model_cases body user now db)
      as [[_ He]|[(m & Hf & _ & _)|[(m & Hf & _ & _)|[Hlen _]]]]; [exact He| | |].
    + apply found_elem in Hf as (Hin & Hn & Hv). by destruct (Hnone m Hin).
    + apply found_elem in Hf as (Hin & Hn & Hv). by destruct (Hnone m Hin).
    + exfalso.
      destruct (filter _ (ml_model db)) as [|m rest] eqn:Hf; [simpl in Hlen; lia|].
      assert (Hm : m ∈ m :: rest) by left. rewrite <- Hf in Hm.
      apply list_elem_of_filter in Hm as [Hm Hin]. by destruct (Hnone m Hin).
  - intros body user now db target Hkey Hin Hn Hv Hst.
    pose proof (filter_key_unique _ _ Hkey Hin) as Hf. rewrite Hn, Hv in Hf.
    destruct (promote_model_cases body user now db)
      as [[He _]|[(m & _ & _ & He)|[(m & He & Hm & _)|[Hlen _]]]].
    + rewrite Hf in He. discriminate.
    + exact He.
    + rewrite Hf in He. injection He as <-. contradiction.
    + rewrite Hf in Hlen. simpl in Hlen. lia.
  - intros body user now user' now' db resp db' Hp.
    destruct (promote_model_cases body user now db)
      as [[_ He]|[(m & _ & _ & He)|[(m & Hf & Hst & He)|[_ He]]]];
      rewrite He in Hp; try discriminate.
    injection Hp as <- <-.
    match goal with |- promote_model _ _ _ ?d = _ => set (db1 := d) end.
    assert (Hf1 : filter (fun x => MLModel.model_name x = req_model_name body
                                   /\ MLModel.version x = req_version body)
                         (ml_model db1)
                  = [set_promoted (MLModel.id m) now (email user)
                       (archive_prod (req_model_name body) m)]).
    { subst db1. simpl. by apply promoted_table_found. }
    destruct (promote_model_cases body user' now' db1)
      as [[He1 _]|[(m1 & _ & _ & He1)|[(m1 & He1 & Hm1 & _)|[Hlen _]]]].
    + rewrite Hf1 in He1. discriminate.
    + exact He1.
    + rewrite Hf1 in He1. injection He1 as <-. exfalso. apply Hm1.
      unfold set_promoted. rewrite archive_prod_id. by rewrite decide_True.
    + rewrite Hf1 in Hlen. simpl in Hlen. lia.
Qed.

Lemma promote_rejections_keep_state_witness :
  promote_model (mkPromoteReq "demand_forecast" "v9") admin 2000 two_versions
  = (Raises (NotFoundError "demand_forecast" "v9"), two_versions)
  /\ promote_model (mkPromoteReq "demand_forecast" "v1") admin 2000 two_versions
     = (Raises AlreadyPromotedError, two_versions)
  /\ (let db' := snd (promote_model (mkPromoteReq "demand_forecast" "v2") admin 2000
                        two_versions) in
      promote_model (mkPromoteReq "demand_forecast" "v2") admin 3000 db'
      = (Raises AlreadyPromotedError, db')).
Proof.
  destruct promote_rejections_keep_state as (Hnf & Hap & Htwice).
  split; [|split].
  - apply (Hnf (mkPromoteReq "demand_forecast" "v9")).
    intros m Hm [_ Hv]. vm_compute in Hm.
    apply elem_of_cons in Hm as [->|Hm]; [discriminate|].
    apply elem_of_cons in Hm as [->|Hm]; [discriminate|].
    inversion Hm.
  - apply (Hap (mkPromoteReq "demand_forecast" "v1") admin 2000%Z two_versions
               (MLModel.mk 1 "demand_forecast" "v1" "{}" prod (Some 1000%Z)
                           (Some "admin@indigoglass.example"))).
    + apply (bool_decide_unpack _). vm_compute. reflexivity.
    + vm_compute. left.
    + reflexivity.
    + reflexivity.
    + reflexivity.
  - apply (Htwice (mkPromoteReq "demand_forecast" "v2") admin 2000%Z admin 3000%Z
                  two_versions _ _ eq_refl).
Defined.

End RegistryProofs.

(** * Forecast serving *)
Section ForecastProofs.

Import Forecast Scenario.

Implicit Types (db : warehouse) (store : gmap string ForecastResponse).

Lemma get_forecast_hit today db _redis sku region start_date end_date incl cached :
  cache_get _redis (cache_key_of today sku region end_date) = Some cached ->
  get_forecast today db _redis sku region start_date end_date incl
  = (Returns cached, _redis).
Proof. unfold get_forecast, cache_key_of. by intros ->. Qed.













Section Points.

(** A property of a date and its forecast point that does not read
    [actual_units]. *)
Variable good : Z -> ForecastPoint -> Prop.
Hypothesis good_actual : forall k p u,
  good k p ->
  good k (mkForecastPoint (date p) (forecast_units p) (interval_low p)
                          (interval_high p) u).

Lemma dict_set_Forall k v d :
  good k v -> Forall (fun kp => good (fst kp) (snd kp)) d ->
  Forall (fun kp => good (fst kp) (snd kp)) (dict_set k v d).
Proof.
  intros Hv. induction 1 as [|[k' v'] d Hx Hd IH]; simpl.
  - by repeat constructor.
  - case_decide; constructor; auto.
Qed.

Lemma set_actual_Forall k u d :
  Forall (fun kp => good (fst kp) (snd kp)) d ->
  Forall (fun kp => good (fst kp) (snd kp)) (set_actual k u d).
Proof.
  unfold set_actual. intros Hd. apply Forall_fmap.
  eapply Forall_impl; [exact Hd|]. intros [k' p] Hp. simpl in *.
  case_decide; simpl; auto.
Qed.

Lemma collect_forecasts_Forall db product location ver start_key end_key incl :
  (forall day f,
     (day, f) ∈ select_forecasts db product location ver start_key end_key ->
     good day (mkForecastPoint (Calendar.isoformat day) (FactForecast.forecast_units f)
                 (FactForecast.prediction_interval_low f)
                 (FactForecast.prediction_interval_high f) None)) ->
  Forall (fun kp => good (fst kp) (snd kp))
    (collect_forecasts db product location ver start_key end_key incl).
Proof.
  intros Hsel. unfold collect_forecasts.
  set (sel := select_forecasts db product location ver start_key end_key) in *.
  assert (Hbase : Forall (fun kp : Z * ForecastPoint => good (fst kp) (snd kp)) [])
    by constructor.
  revert Hbase. generalize (@nil (Z * ForecastPoint)) as acc.
  induction sel as [|[day f] sel IH]; intros acc Hacc; simpl.
  - destruct incl; [|exact Hacc].
    revert acc Hacc.
    induction (select_actuals db product location start_key end_key)
      as [|[day units] acts IHa]; intros acc Hacc; simpl; [exact Hacc|].
    apply IHa. by apply set_actual_Forall.
  - apply IH.
    + intros day' f' Hin. apply Hsel. by right.
    + apply dict_set_Forall; [|exact Hacc]. apply Hsel. by left.
Qed.

End Points.

(** Every point of the dict stands under its date and carries the figures
    of a row of the query for that date. *)
Lemma collect_forecasts_sound db product location ver start_key end_key incl :
  Forall (fun kp =>
            exists f,
              (fst kp, f) ∈ select_forecasts db product location ver start_key end_key
              /\ date (snd kp) = Calendar.isoformat (fst kp)
              /\ forecast_units (snd kp) = FactForecast.forecast_units f
              /\ interval_low (snd kp) = FactForecast.prediction_interval_low f
              /\ interval_high (snd kp) = FactForecast.prediction_interval_high f)
    (collect_forecasts db product location ver start_key end_key incl).
Proof.
  apply (collect_forecasts_Forall
           (fun k p =>
              exists f,
                (k, f) ∈ select_forecasts db product location ver start_key end_key
                /\ date p = Calendar.isoformat k
                /\ forecast_units p = FactForecast.forecast_units f
                /\ interval_low p = FactForecast.prediction_interval_low f
                /\ interval_high p = FactForecast.prediction_interval_high f)).
  - intros k p u (f & H). exists f. exact H.
  - intros day f Hin. exists f. simpl. tauto.
Qed.

(** The ways a call on an initialised cache returns a response: from the
    cache, as the placeholder for a pair without a servable model, or
    freshly computed and stored under the key. *)
Lemma get_forecast_returns today db store sku region start_date end_date incl r redis1 :
  get_forecast today db (Some store) sku region start_date end_date incl
  = (Returns r, redis1) ->
  (store !! cache_key_of today sku region end_date = Some r /\ redis1 = Some store)
  \/ (r = no_model_assigned sku region /\ redis1 = Some store)
  \/ redis1 = Some (<[cache_key_of today sku region end_date := r]> store).
Proof.
  unfold get_forecast, cache_key_of. cbn [cache_get cache_set].
  repeat case_match; intros Heq; simplify_eq; auto.
Qed.

(** C10. The cache key of a request is built from the SKU, the region and
    the end date alone. A call that serves a model leaves its response in
    the cache under that key, and every call with the same SKU, region and
    end date made while that entry is live returns this response, whatever
    start date (or choice of actuals) it passes and whatever the warehouse
    holds by then: the rows returned are those of the first request's
    range. *)
Theorem forecast_cache_ignores_start_date
    today db1 store sku region start1 end_date incl1 first redis1 :
  get_forecast today db1 (Some store) sku region start1 end_date incl1
  = (Returns first, redis1) ->
  first <> no_model_assigned sku region ->
  cache_get redis1 (cache_key_of today sku region end_date) = Some first
  /\ forall db2 redis2 start2 incl2,
       cache_get redis2 (cache_key_of today sku region end_date) = Some first ->
       get_forecast today db2 redis2 sku region start2 end_date incl2
       = (Returns first, redis2).
Proof.
  intros Hcall Hserved. split.
  - apply get_forecast_returns in Hcall as [[Hhit ->] | [[-> _] | ->]].
    + exact Hhit.
    + contradiction.
    + cbn [cache_get]. apply lookup_insert_eq.
  - intros db2 redis2 start2 incl2 Hlive. by apply get_forecast_hit.
Qed.

Lemma forecast_cache_ignores_start_date_witness :
  let key := cache_key_of today "SKU-1" "EU" (Some 19735%Z) in
  get_forecast today (serving_db prod) (Some ∅) "SKU-1" "EU"
               (Some 19733%Z) (Some 19735%Z) true
  = (Returns late_response, cache_set (Some ∅) key late_response)
  /\ length (forecasts late_response) = 1
  /\ get_forecast today (serving_db prod) (cache_set (Some ∅) key late_response)
                  "SKU-1" "EU" (Some 19700%Z) (Some 19735%Z) true
     = (Returns late_response, cache_set (Some ∅) key late_response)
  /\ (exists uncached,
        fst (get_forecast today (serving_db prod) None "SKU-1" "EU"
                          (Some 19700%Z) (Some 19735%Z) true) = Returns uncached
        /\ length (forecasts uncached) = 2).
Proof.
  intros key.
  assert (Hcall : get_forecast today (serving_db prod) (Some ∅) "SKU-1" "EU"
                               (Some 19733%Z) (Some 19735%Z) true
                  = (Returns late_response, cache_set (Some ∅) key late_response))
    by (vm_compute; reflexivity).
  assert (Hserved : late_response <> no_model_assigned "SKU-1" "EU") by discriminate.
  destruct (forecast_cache_ignores_start_date today (serving_db prod) ∅ "SKU-1" "EU"
              (Some 19733%Z) (Some 19735%Z) true late_response _ Hcall Hserved)
    as [Hlive Hlater].
  split; [exact Hcall|]. split; [reflexivity|]. split.
  - apply Hlater. exact Hlive.
  - eexists. split; [vm_compute; reflexivity|reflexivity].
Defined.






End ForecastProofs.

(** * Cross-validation and metrics *)
Section TrainProofs.

Import Pandas Train Scenario.

(** [iloc] on a run of consecutive positions is a slice. *)
Lemma iloc_seq {A : Type} (rows : list A) (start n : nat) :
  iloc rows (seq start n) = take n (drop start rows).
Proof.
  unfold iloc. revert start. induction n as [|n IH]; intros start.
  - by rewrite take_0.
  - cbn [seq omap list_omap]. rewrite IH.
    destruct (rows !! start) as [x|] eqn:Hx.
    + by rewrite (drop_S _ _ _ Hx).
    + apply lookup_ge_None in Hx.
      rewrite !drop_ge by lia. by rewrite !take_nil.
Qed.

(** The folds of [cross_validate_model]: fold [j] trains on the rows before
    its validation block and validates on the block. *)
Lemma cross_validation_folds_shape {A : Type} (rows : list A) (n_splits : Z)
    (folds : list (list A * list A)) :
  cross_validation_folds rows n_splits = Returns folds ->
  length folds = Z.to_nat n_splits
  /\ forall train val, (train, val) ∈ folds ->
       exists test_start test_size,
         0 < test_size
         /\ test_start + test_size <= length rows
         /\ train = take test_start rows
         /\ val = take test_size (drop test_start rows).
Proof.
  unfold cross_validation_folds, TimeSeriesSplit_split.
  destruct (n_splits <=? 1)%Z eqn:Hk; [discriminate|].
  apply Z.leb_gt in Hk.
  set (k := Z.to_nat n_splits).
  set (n := length rows).
  set (size := n / S k).
  destruct (n <? S k) eqn:Hn; [discriminate|]. apply Nat.ltb_ge in Hn.
  destruct (n <=? size * k) eqn:Hs; [discriminate|]. apply Nat.leb_gt in Hs.
  intros Heq. injection Heq as <-. split.
  - by rewrite !length_fmap, length_seq.
  - intros train val Hin.
    apply list_elem_of_fmap in Hin as ([tr va] & Heq & Hin).
    apply list_elem_of_fmap in Hin as (j & Hj & Hin).
    apply elem_of_seq in Hin. simpl in Heq. injection Hj as -> ->.
    injection Heq as -> ->.
    assert (Hsize : 0 < size).
    { unfold size. apply Nat.div_str_pos. lia. }
    assert (Hjk : j * size + size <= k * size) by nia.
    exists (n - k * size + j * size), size.
    split; [exact Hsize|]. split; [fold n; nia|].
    split; [apply (iloc_seq rows 0)|apply iloc_seq].
Qed.


(** C8, as the claim states it, fails: rows dated 1, 2, 2, 3 are in
    chronological order, and with two splits the first fold trains on the
    rows dated 1 and 2 and validates on the other row dated 2, so the
    latest training date is not before the earliest validation date. *)
Lemma walk_forward_fold_shares_a_date :
  Sorted Z.le shared_dates
  /\ cross_validation_folds shared_dates 2
     = Returns [([1; 2], [2]); ([1; 2; 2], [3])]%Z
  /\ ~ (forall folds, cross_validation_folds shared_dates 2 = Returns folds ->
          forall train val, (train, val) ∈ folds ->
            forall t v, t ∈ train -> v ∈ val -> (t < v)%Z).
Proof.
  split; [|split].
  - unfold shared_dates. repeat constructor; lia.
  - reflexivity.
  - intros Hclaim.
    assert (H : (2 < 2)%Z).
    { apply (Hclaim _ eq_refl [1; 2]%Z [2]%Z); [left|right; left|left]. }
    lia.
Qed.

Section WalkForward.

Context {A : Type} (date : A -> Z).

Local Instance not_after_trans : Transitive (not_after date).
Proof. unfold not_after. intros a b c. lia. Qed.

Local Instance before_trans : Transitive (before date).
Proof. unfold before. intros a b c. lia. Qed.

Lemma sorted_slices (R : relation A) `{!Transitive R} (rows : list A) (n k : nat) t v :
  Sorted R rows -> t ∈ take n rows -> v ∈ take k (drop n rows) -> R t v.
Proof.
  intros Hs Ht Hv. apply Sorted_StronglySorted in Hs; [|done].
  rewrite <- (take_drop n rows) in Hs.
  eapply StronglySorted_app_1_elem_of; [exact Hs|exact Ht|].
  apply elem_of_take in Hv as (i & Hi & _). eapply list_elem_of_lookup_2, Hi.
Qed.

(** C8, amended. For every dataset and number of splits for which
    cross-validation runs, there is one fold per split, and each fold
    trains on the rows that precede its validation block in row order. When
    the rows are in chronological order no training date is later than a
    validation date of the fold: max(train_dates) <= min(val_dates). The
    strict inequality holds when the row dates strictly increase, that is,
    when no two rows share a date. *)
Theorem walk_forward_trains_on_preceding_rows
    (rows : list A) (n_splits : Z) (folds : list (list A * list A)) :
  cross_validation_folds rows n_splits = Returns folds ->
  length folds = Z.to_nat n_splits
  /\ forall train val, (train, val) ∈ folds ->
       (exists test_start test_size,
          0 < test_size
          /\ train = take test_start rows
          /\ val = take test_size (drop test_start rows))
       /\ (Sorted (not_after date) rows ->
             forall t v, t ∈ train -> v ∈ val -> (date t <= date v)%Z)
       /\ (Sorted (before date) rows ->
             forall t v, t ∈ train -> v ∈ val -> (date t < date v)%Z).
Proof.
  intros Hfolds.
  destruct (cross_validation_folds_shape rows n_splits folds Hfolds) as [Hlen Hshape].
  split; [exact Hlen|].
  intros train val Hin.
  destruct (Hshape train val Hin) as (start & size & Hsize & _ & -> & ->).
  split; [by exists start, size|]. split.
  - intros Hs t v. by apply (sorted_slices (not_after date)).
  - intros Hs t v. by apply (sorted_slices (before date)).
Qed.

End WalkForward.

Lemma walk_forward_trains_on_preceding_rows_witness :
  (forall t v, t ∈ [1; 2]%Z -> v ∈ [2]%Z -> (t <= v)%Z)
  /\ (forall t v, t ∈ [1; 2]%Z -> v ∈ [3]%Z -> (t < v)%Z).
Proof.
  split.
  - destruct (walk_forward_trains_on_preceding_rows (fun d => d) shared_dates 2
                [([1; 2], [2]); ([1; 2; 2], [3])]%Z eq_refl) as [_ Hfold].
    destruct (Hfold [1; 2]%Z [2]%Z) as (_ & Hle & _); [left|].
    apply Hle. unfold shared_dates, not_after. repeat constructor; lia.
  - destruct (walk_forward_trains_on_preceding_rows (fun d => d) distinct_dates 2
                [([1; 2], [3]); ([1; 2; 3], [4])]%Z eq_refl) as [_ Hfold].
    destruct (Hfold [1; 2]%Z [3]%Z) as (_ & _ & Hlt); [left|].
    apply Hlt. unfold distinct_dates, before. repeat constructor; lia.
Defined.


(** ** The test MAPE *)

Lemma mean_absolute_percentage_error_returns (y_true y_pred : list Q) (v : Q) :
  mean_absolute_percentage_error y_true y_pred = Returns v ->
  length y_true = length y_pred
  /\ y_true <> []
  /\ v = average (absolute_percentage_errors y_true y_pred).
Proof.
  unfold mean_absolute_percentage_error, check_reg_targets.
  destruct (length y_true =? length y_pred) eqn:Hlen; simpl; [|discriminate].
  destruct (length y_true =? 0) eqn:Hnil; simpl; [discriminate|].
  intros Hv. injection Hv as <-.
  apply Nat.eqb_eq in Hlen. apply Nat.eqb_neq in Hnil.
  split; [exact Hlen|]. split; [|reflexivity].
  intros ->. by apply Hnil.
Qed.

Lemma train_xgboost_model_test_mape {X M : Type} (fit : list X -> list Q -> M)
    (predict : M -> list X -> list Q) X_train y_train X_test y_test model metrics :
  train_xgboost_model fit predict X_train y_train X_test y_test
  = Returns (model, metrics) ->
  model = fit X_train y_train
  /\ mean_absolute_percentage_error y_test (predict model X_test)
     = Returns (test_mape metrics).
Proof.
  unfold train_xgboost_model.
  destruct (mean_absolute_error y_train _) as [a|]; simpl; [|discriminate].
  destruct (mean_squared_error y_train _) as [b|]; simpl; [|discriminate].
  destruct (mean_absolute_error y_test _) as [c|]; simpl; [|discriminate].
  destruct (mean_squared_error y_test _) as [d|]; simpl; [|discriminate].
  destruct (mean_absolute_percentage_error y_test _) as [e|] eqn:He; simpl;
    [|discriminate].
  intros Heq. injection Heq as <- <-. by rewrite He.
Qed.

Lemma Qsum_ext (xs ys : list Q) :
  Forall2 Qeq xs ys -> (Qsum xs == Qsum ys)%Q.
Proof.
  induction 1 as [|x y xs ys Hxy _ IH]; simpl; [reflexivity|].
  by rewrite Hxy, IH.
Qed.

Lemma epsilon_pos : (0 < epsilon)%Q.
Proof. reflexivity. Qed.

(** With labels of at least [epsilon], every row is kept by the
    specification, with the same ratio. *)
Lemma percentage_errors_positive_labels (y_true y_pred : list Q) :
  Forall (fun t => epsilon <= t)%Q y_true ->
  length y_true = length y_pred ->
  Forall2 Qeq
    (absolute_percentage_errors y_true y_pred)
    (omap (fun tp : Q * Q =>
             if Qeq_bool (fst tp) 0 then None
             else Some (Qabs (snd tp - fst tp) / fst tp)%Q)
          (zip y_true y_pred)).
Proof.
  intros Hpos. revert y_pred.
  induction Hpos as [|t ts Ht _ IH]; intros [|p ps] Hlen; try discriminate.
  - constructor.
  - simpl in Hlen. injection Hlen as Hlen.
    unfold absolute_percentage_errors. cbn [zip_with zip omap list_omap fst snd].
    assert (Ht0 : (0 < t)%Q) by (eapply Qlt_le_trans; [apply epsilon_pos|exact Ht]).
    destruct (Qeq_bool t 0) eqn:Hz.
    { apply Qeq_bool_eq in Hz. rewrite Hz in Ht0. by apply Qlt_irrefl in Ht0. }
    constructor; [|by apply IH].
    assert (Habs : (Qabs t == t)%Q) by (apply Qabs_pos, Qlt_le_weak, Ht0).
    assert (Hmax : (Qmax (Qabs t) epsilon == t)%Q).
    { rewrite Habs. by apply Q.max_l. }
    by rewrite Hmax.
Qed.

(** C9, as the claim states it, fails: with the test labels 0 and 2 and the
    predictions 1 and 2, the reported test MAPE is 2^51 (the row with label
    0 enters with the denominator [epsilon]), while the mean over the rows
    with a nonzero label is 0. *)
Lemma test_mape_counts_zero_labels :
  exists metrics,
    train_xgboost_model echo_fit echo_predict [5%Q] [5%Q] [1%Q; 2%Q] [0%Q; 2%Q]
    = Returns (tt, metrics)
    /\ (test_mape metrics == inject_Z (2 ^ 51))%Q
    /\ (mape_spec [0%Q; 2%Q] (echo_predict tt [1%Q; 2%Q]) == 0)%Q
    /\ ~ (test_mape metrics == mape_spec [0%Q; 2%Q] (echo_predict tt [1%Q; 2%Q]))%Q.
Proof.
  eexists. split; [vm_compute; reflexivity|].
  split; [reflexivity|]. split; [reflexivity|].
  intros H. vm_compute in H. discriminate.
Qed.

(** C9, amended. The reported test MAPE is the mean, over all test rows, of
    [|y_pred - y_true| / max(|y_true|, epsilon)] with [epsilon = 2^-52]: a
    row with [y_true = 0] is not left out, it contributes
    [|y_pred| * 2^52]. When every test label is at least [epsilon] (so for
    positive quantities) the value is the mean of
    [|y_pred - y_true| / y_true] of the specification. *)
Theorem test_mape_averages_all_rows {X M : Type} (fit : list X -> list Q -> M)
    (predict : M -> list X -> list Q) X_train y_train X_test y_test model metrics :
  train_xgboost_model fit predict X_train y_train X_test y_test
  = Returns (model, metrics) ->
  let y_pred := predict model X_test in
  test_mape metrics = average (absolute_percentage_errors y_test y_pred)
  /\ length (absolute_percentage_errors y_test y_pred) = length y_test
  /\ (forall i t p,
        y_test !! i = Some t -> y_pred !! i = Some p ->
        absolute_percentage_errors y_test y_pred !! i
        = Some (Qabs (p - t) / Qmax (Qabs t) epsilon)%Q)
  /\ (forall i t p,
        y_test !! i = Some t -> y_pred !! i = Some p -> (t == 0)%Q ->
        exists e, absolute_percentage_errors y_test y_pred !! i = Some e
                  /\ (e == Qabs p * inject_Z (2 ^ 52))%Q)
  /\ (Forall (fun t => epsilon <= t)%Q y_test ->
        (test_mape metrics == mape_spec y_test y_pred)%Q).
Proof.
  intros Hrun y_pred.
  apply train_xgboost_model_test_mape in Hrun as [_ Hmape].
  apply mean_absolute_percentage_error_returns in Hmape as (Hlen & Hne & Hval).
  fold y_pred in Hlen, Hval.
  assert (Hterm : forall i t p,
            y_test !! i = Some t -> y_pred !! i = Some p ->
            absolute_percentage_errors y_test y_pred !! i
            = Some (Qabs (p - t) / Qmax (Qabs t) epsilon)%Q).
  { intros i t p Ht Hp. unfold absolute_percentage_errors.
    rewrite lookup_zip_with, Ht, Hp. reflexivity. }
  split; [exact Hval|]. split.
  { unfold absolute_percentage_errors. rewrite length_zip_with. lia. }
  split; [exact Hterm|]. split.
  - intros i t p Ht Hp Hz. eexists. split; [by apply Hterm|].
    assert (Hmax : (Qmax (Qabs t) epsilon == epsilon)%Q).
    { rewrite Hz. by apply Q.max_r. }
    rewrite Hmax, Hz. unfold Qminus. rewrite Qplus_0_r.
    unfold Qdiv. apply Qmult_comp; reflexivity.
  - intros Hpos. rewrite Hval. unfold mape_spec, average.
    pose proof (percentage_errors_positive_labels y_test y_pred Hpos Hlen) as Hall.
    apply Qdiv_comp.
    + by apply Qsum_ext.
    + unfold count. by rewrite (Forall2_length _ _ _ Hall).
Qed.

Lemma test_mape_averages_all_rows_witness :
  exists metrics,
    train_xgboost_model echo_fit echo_predict [5%Q] [5%Q] [3%Q; 2%Q] [4%Q; 2%Q]
    = Returns (tt, metrics)
    /\ (test_mape metrics == mape_spec [4%Q; 2%Q] (echo_predict tt [3%Q; 2%Q]))%Q.
Proof.
  destruct (train_xgboost_model echo_fit echo_predict [5%Q] [5%Q] [3%Q; 2%Q] [4%Q; 2%Q])
    as [[[] metrics]|e] eqn:Hrun; [|vm_compute in Hrun; discriminate].
  exists metrics. split; [reflexivity|].
  destruct (test_mape_averages_all_rows echo_fit echo_predict
              [5%Q] [5%Q] [3%Q; 2%Q] [4%Q; 2%Q] tt metrics Hrun)
    as (_ & _ & _ & _ & Hspec).
  apply Hspec. repeat constructor; discriminate.
Defined.

End TrainProofs.

(** * Feature engineering and the hold-out split *)
Section FeatureProofs.

Import Pandas Features Scenario.

Implicit Types (df : list FeatureRow) (r : FeatureRow).

(** ** The hold-out split *)

Lemma sort_values_Permutation df : sort_values df ≡ₚ df.
Proof. apply merge_sort_Permutation. Qed.

Lemma foldl_max_spec (rest : list FeatureRow) (m0 : Z) :
  let m := foldl (fun m x => Z.max m (date (obs x))) m0 rest in
  (m0 <= m)%Z
  /\ (forall x, x ∈ rest -> (date (obs x) <= m)%Z)
  /\ (m = m0 \/ exists x, x ∈ rest /\ date (obs x) = m).
Proof.
  revert m0. induction rest as [|x rest IH]; intros m0; simpl.
  - split; [lia|]. split; [|by left]. intros x Hx. inversion Hx.
  - destruct (IH (Z.max m0 (date (obs x)))) as (Hle & Hall & Hex).
    split; [lia|]. split.
    + intros y Hy. apply elem_of_cons in Hy as [->|Hy]; [lia|by apply Hall].
    + destruct Hex as [Heq|(y & Hy & Heq)].
      * destruct (Z.max_spec m0 (date (obs x))) as [[_ Hm]|[_ Hm]].
        -- right. exists x. split; [left|congruence].
        -- left. congruence.
      * right. exists y. split; [by right|exact Heq].
Qed.

Lemma max_date_latest df d : max_date df = Some d -> latest_date df d.
Proof.
  destruct df as [|r rest]; [discriminate|]. simpl. intros Hd. injection Hd as <-.
  destruct (foldl_max_spec rest (date (obs r))) as (Hle & Hall & Hex).
  split.
  - destruct Hex as [Heq|(x & Hx & Heq)].
    + exists r. split; [left|by rewrite Heq].
    + exists x. split; [by right|exact Heq].
  - intros x Hx. apply elem_of_cons in Hx as [->|Hx]; [exact Hle|by apply Hall].
Qed.

Lemma latest_date_unique df d d' : latest_date df d -> latest_date df d' -> d = d'.
Proof.
  intros [(r & Hr & <-) Hmax] [(r' & Hr' & <-) Hmax'].
  specialize (Hmax r' Hr'). specialize (Hmax' r Hr). lia.
Qed.

Lemma latest_date_Permutation df df' d :
  df ≡ₚ df' -> latest_date df d -> latest_date df' d.
Proof.
  intros Hp [(r & Hr & Hd) Hmax]. split.
  - exists r. by rewrite <- Hp.
  - intros x Hx. apply Hmax. by rewrite Hp.
Qed.

(** The partitions of a frame whose latest date is known. *)
Lemma split_frames_latest df test_days latest :
  latest_date df latest ->
  split_frames df test_days
  = (filter (fun r => (date (obs r) <= latest - test_days)%Z) (sort_values df),
     filter (fun r => (latest - test_days < date (obs r))%Z) (sort_values df)).
Proof.
  intros Hlatest. unfold split_frames.
  destruct (max_date (sort_values df)) as [d|] eqn:Hmax.
  - apply max_date_latest in Hmax.
    apply (latest_date_Permutation _ df) in Hmax; [|apply sort_values_Permutation].
    by rewrite (latest_date_unique df d latest Hmax Hlatest).
  - destruct (sort_values df) as [|r rest] eqn:Hsort; [|discriminate].
    destruct Hlatest as [(r & Hr & _) _].
    rewrite <- (sort_values_Permutation df), Hsort in Hr. inversion Hr.
Qed.

Lemma split_frames_empty test_days : split_frames [] test_days = ([], []).
Proof. reflexivity. Qed.

Lemma latest_date_exists df : df <> [] -> exists d, latest_date df d.
Proof.
  destruct df as [|r rest]; [done|]. intros _.
  eexists. by apply max_date_latest.
Qed.

Lemma split_frames_Permutation df test_days :
  fst (split_frames df test_days) ++ snd (split_frames df test_days) ≡ₚ df.
Proof.
  destruct df as [|r rest]; [reflexivity|].
  destruct (latest_date_exists (r :: rest)) as [latest Hlatest]; [done|].
  rewrite (split_frames_latest _ _ _ Hlatest). cbn [fst snd].
  rewrite <- (sort_values_Permutation (r :: rest)) at 3.
  rewrite <- (filter_app_complement
                (fun x => (date (obs x) <= latest - test_days)%Z)
                (sort_values (r :: rest))) at 3.
  f_equiv. apply reflexive_eq, list_filter_iff. intros x. lia.
Qed.


Lemma split_frames_train_nil df test_days latest :
  latest_date df latest ->
  (forall r, r ∈ df -> (latest - test_days < date (obs r))%Z) ->
  fst (split_frames df test_days) = [].
Proof.
  intros Hlatest Hall. rewrite (split_frames_latest _ _ _ Hlatest). cbn [fst].
  destruct (filter _ (sort_values df)) as [|x xs] eqn:Hf; [reflexivity|exfalso].
  assert (Hx : x ∈ x :: xs) by left. rewrite <- Hf in Hx.
  apply list_elem_of_filter in Hx as [Hx Hin].
  rewrite (sort_values_Permutation df) in Hin.
  specialize (Hall x Hin). lia.
Qed.

(** C3, as the claim states it, fails: the split of the engineered thirty
    days returns normally with an empty training partition for
    [test_days = 14] and with an empty test partition for [test_days = 0];
    the code has no path that raises. *)
Lemma holdout_split_returns_empty_partition :
  let df := engineer_features two_holidays thirty_days in
  length df = 2
  /\ (exists X_test y_test,
        prepare_train_test_split df 14 = ([], X_test, [], y_test)
        /\ length X_test = 2)
  /\ (exists X_train y_train,
        prepare_train_test_split df 0 = (X_train, [], y_train, [])
        /\ length X_train = 2).
Proof.
  split; [vm_compute; reflexivity|]. split.
  - eexists _, _. split; [vm_compute; reflexivity|reflexivity].
  - eexists _, _. split; [vm_compute; reflexivity|reflexivity].
Qed.

(** C3, amended. For every engineered feature set and every [test_days]
    the hold-out split returns its two partitions and never fails: every
    row goes to exactly one of them, the training partition holds the rows
    dated up to the cut-off (latest date minus [test_days]) and the test
    partition the rows dated after it. A partition can be empty: the test
    partition is empty when [test_days <= 0], the training partition when
    every row is dated after the cut-off, and both for the empty frame. *)
Theorem holdout_split_returns_partitions df test_days :
  let train_df := fst (split_frames df test_days) in
  let test_df := snd (split_frames df test_days) in
  prepare_train_test_split df test_days
  = (feature_cols <$> train_df, feature_cols <$> test_df,
     (fun r => quantity (obs r)) <$> train_df,
     (fun r => quantity (obs r)) <$> test_df)
  /\ train_df ++ test_df ≡ₚ df
  /\ (df = [] -> train_df = [] /\ test_df = [])
  /\ (forall latest,
        latest_date df latest ->
        (forall r, r ∈ train_df
                   <-> r ∈ df /\ (date (obs r) <= latest - test_days)%Z)
        /\ (forall r, r ∈ test_df
                      <-> r ∈ df /\ (latest - test_days < date (obs r))%Z)
        /\ ((test_days <= 0)%Z -> test_df = [])
        /\ ((forall r, r ∈ df -> (latest - test_days < date (obs r))%Z) ->
            train_df = [])).
Proof.
  intros train_df test_df. split; [|split; [|split]].
  - unfold prepare_train_test_split, train_df, test_df.
    by destruct (split_frames df test_days).
  - apply split_frames_Permutation.
  - intros ->. by unfold train_df, test_df.
  - intros latest Hlatest. unfold train_df, test_df.
    rewrite (split_frames_latest _ _ _ Hlatest). cbn [fst snd].
    split; [|split; [|split]].
    + intros r. rewrite list_elem_of_filter, (sort_values_Permutation df). tauto.
    + intros r. rewrite list_elem_of_filter, (sort_values_Permutation df). tauto.
    + intros Hdays.
      destruct (filter _ (sort_values df)) as [|x xs] eqn:Hf; [reflexivity|exfalso].
      assert (Hx : x ∈ x :: xs) by left. rewrite <- Hf in Hx.
      apply list_elem_of_filter in Hx as [Hx Hin].
      rewrite (sort_values_Permutation df) in Hin.
      destruct Hlatest as [_ Hmax]. specialize (Hmax x Hin). lia.
    + intros Hall.
      pose proof (split_frames_train_nil df test_days latest Hlatest Hall) as Hnil.
      by rewrite (split_frames_latest _ _ _ Hlatest) in Hnil.
Qed.


Lemma latest_date_decide df d :
  bool_decide (Exists (fun r => date (obs r) = d) df) = true ->
  bool_decide (Forall (fun r => (date (obs r) <= d)%Z) df) = true ->
  latest_date df d.
Proof.
  intros Hex Hall. apply bool_decide_eq_true in Hex, Hall. split.
  - apply Exists_exists in Hex as (r & Hr & Hd). by exists r.
  - by apply Forall_forall.
Qed.

Lemma holdout_split_returns_partitions_witness :
  let df := engineer_features two_holidays thirty_days in
  fst (split_frames df 14) = [] /\ snd (split_frames df 0) = [].
Proof.
  intros df.
  assert (Hlatest : latest_date df 19752)
    by (apply latest_date_decide; vm_compute; reflexivity).
  split.
  - destruct (holdout_split_returns_partitions df 14) as (_ & _ & _ & Hparts).
    destruct (Hparts 19752%Z Hlatest) as (_ & _ & _ & Htrain).
    apply Htrain. apply Forall_forall. apply (bool_decide_unpack _).
    vm_compute. reflexivity.
  - destruct (holdout_split_returns_partitions df 0) as (_ & _ & _ & Hparts).
    destruct (Hparts 19752%Z Hlatest) as (_ & _ & Htest & _).
    apply Htest. lia.
Defined.

(** ** The forty-day scenario *)

(** [dropna] keeps exactly the rows without a null. *)
Lemma engineer_features_notna country_holidays (obs_df : list Observation) :
  Forall (fun r => notna r = true) (engineer_features country_holidays obs_df).
Proof.
  apply Forall_forall. intros r Hr. unfold engineer_features, dropna in Hr.
  by apply list_elem_of_filter in Hr as [Hr _].
Qed.

Lemma filter_imap_proj {A B C : Type} (P : B -> Prop) `{forall x, Decision (P x)}
    (proj : B -> C) (f g : nat -> A -> B) (l : list A) :
  (forall i x, P (f i x) <-> P (g i x)) ->
  (forall i x, proj (f i x) = proj (g i x)) ->
  proj <$> filter P (imap f l) = proj <$> filter P (imap g l).
Proof.
  revert f g. induction l as [|x l IH]; intros f g HP Hproj; [reflexivity|].
  cbn [imap]. rewrite !filter_cons.
  specialize (IH (f ∘ S) (g ∘ S)).
  destruct (decide (P (f 0 x))) as [Hf|Hf], (decide (P (g 0 x))) as [Hg|Hg];
    try (exfalso; apply HP in Hf; contradiction);
    try (exfalso; apply HP in Hg; contradiction).
  - rewrite !fmap_cons, Hproj. f_equal. apply IH; intros; [apply HP|apply Hproj].
  - apply IH; intros; [apply HP|apply Hproj].
Qed.

(** Which rows survive, and with which raw columns, does not depend on the
    holiday calendar. *)
Lemma engineer_features_obs h h' (obs_df : list Observation) :
  obs <$> engineer_features h obs_df = obs <$> engineer_features h' obs_df.
Proof.
  unfold engineer_features, dropna, with_features.
  apply filter_imap_proj; intros i o; reflexivity.
Qed.


(** C4, as the claim states it, fails: of the 40 days, the 12 rows that
    survive [dropna] are those of the last 12 days, and all of them are
    later than the cut-off (the last day minus 14 days), so the training set
    is empty, not 12 rows. *)
Lemma forty_days_leave_no_training_rows :
  let df := engineer_features two_holidays forty_days in
  let '(X_train, X_test, y_train, y_test) := prepare_train_test_split df 14 in
  length df = 12
  /\ length X_train = 0
  /\ length X_train <> 12
  /\ length X_test = 12.
Proof. vm_compute. repeat split; discriminate. Qed.

Lemma forty_days_obs country_holidays :
  obs <$> engineer_features country_holidays forty_days = drop 28 forty_days.
Proof.
  rewrite (engineer_features_obs country_holidays no_holidays).
  vm_compute. reflexivity.
Qed.

(** The split of any frame whose raw columns are those of days 29 to 40. *)
Lemma last_twelve_days_split df :
  obs <$> df = drop 28 forty_days ->
  length df = 12
  /\ fst (split_frames df 14) = []
  /\ snd (split_frames df 14) ≡ₚ df
  /\ length (snd (split_frames df 14)) = 12
  /\ prepare_train_test_split df 14
     = ([], feature_cols <$> snd (split_frames df 14), [],
        (fun r => quantity (obs r)) <$> snd (split_frames df 14)).
Proof.
  intros Hobs.
  assert (Hlen : length df = 12).
  { rewrite <- (length_fmap obs), Hobs. reflexivity. }
  assert (Hrange : Forall (fun o => (19751 <= date o <= 19762)%Z) (drop 28 forty_days)).
  { apply (bool_decide_unpack _). vm_compute. reflexivity. }
  assert (Hdates : forall r, r ∈ df -> (19751 <= date (obs r) <= 19762)%Z).
  { intros r Hr. apply (list_elem_of_fmap_2 obs) in Hr. rewrite Hobs in Hr.
    by apply (proj1 (Forall_forall _ _) Hrange). }
  assert (Hlast : mkObservation 19762 "P1" "L1" 295 ∈ drop 28 forty_days).
  { apply list_elem_of_In. vm_compute. tauto. }
  assert (Hlatest : latest_date df 19762).
  { split; [|intros r Hr; apply Hdates, Hr].
    rewrite <- Hobs in Hlast.
    apply list_elem_of_fmap in Hlast as (r & Hr & Hin).
    exists r. split; [exact Hin|by rewrite <- Hr]. }
  clear Hrange Hlast.
  assert (Htrain : fst (split_frames df 14) = []).
  { apply (split_frames_train_nil df 14 19762 Hlatest).
    intros r Hr. apply Hdates in Hr. lia. }
  assert (Htest : snd (split_frames df 14) ≡ₚ df).
  { pose proof (split_frames_Permutation df 14) as Hp.
    rewrite Htrain in Hp. exact Hp. }
  split; [exact Hlen|]. split; [exact Htrain|].
  split; [exact Htest|]. split; [rewrite Htest; exact Hlen|].
  unfold prepare_train_test_split.
  destruct (split_frames df 14) as [tr te]. cbn [fst snd] in *.
  rewrite Htrain. reflexivity.
Qed.

(** C4, amended. For product [P1] at location [L1] observed on 40
    consecutive days with the quantities 100, 105, ..., and for any holiday
    calendar, [engineer_features] returns the 12 rows of days 29 to 40 (the
    first 28 days are dropped for the 28-day lag), none of them with a null
    in any column; the hold-out split with [test_days = 14] puts all 12
    rows into the test set and leaves the training set empty. *)
Theorem forty_days_rows_all_fall_in_the_test_set (country_holidays : list Z -> list Z) :
  obs <$> engineer_features country_holidays forty_days = drop 28 forty_days
  /\ Forall (fun r => notna r = true) (engineer_features country_holidays forty_days)
  /\ length (engineer_features country_holidays forty_days) = 12
  /\ fst (split_frames (engineer_features country_holidays forty_days) 14) = []
  /\ snd (split_frames (engineer_features country_holidays forty_days) 14)
     ≡ₚ engineer_features country_holidays forty_days
  /\ length (snd (split_frames (engineer_features country_holidays forty_days) 14)) = 12
  /\ prepare_train_test_split (engineer_features country_holidays forty_days) 14
     = ([],
        feature_cols
          <$> snd (split_frames (engineer_features country_holidays forty_days) 14),
        [],
        (fun r => quantity (obs r))
          <$> snd (split_frames (engineer_features country_holidays forty_days) 14)).
Proof.
  split; [apply forty_days_obs|]. split; [apply engineer_features_notna|].
  apply last_twelve_days_split, forty_days_obs.
Qed.

End FeatureProofs.

(** * Lag and rolling features read the past only *)
Section LeakageProofs.

Import Pandas Features Scenario.

Implicit Types (df : list Observation) (o : Observation).

(** ** Transforms of a series *)

Lemma shift_lookup_past (n : nat) (past : list (option Q)) cur rest :
  shift (S n) (past ++ cur :: rest) !! length past
  = (replicate (S n) None ++ past) !! length past.
Proof.
  unfold shift. rewrite lookup_take_lt by (rewrite length_app; simpl; lia).
  rewrite app_assoc. apply lookup_app_l. rewrite length_app, length_replicate. lia.
Qed.

Lemma shift_past_only n : 1 <= n -> past_only (shift n).
Proof.
  intros Hn past cur cur' rest rest'. destruct n as [|n]; [lia|].
  by rewrite !shift_lookup_past.
Qed.

Lemma shift_1_take (past : list (option Q)) cur rest :
  take (S (length past)) (shift 1 (past ++ cur :: rest)) = None :: past.
Proof.
  unfold shift. rewrite take_take, Nat.min_l by (rewrite length_app; simpl; lia).
  simpl. by rewrite take_app_length.
Qed.

(** A trailing window ends at its position. *)
Lemma rolling_lookup_take {B : Type} w min_periods (agg : list Q -> option B)
    (s s' : list (option Q)) k :
  take (S k) s = take (S k) s' ->
  rolling w min_periods agg s !! k = rolling w min_periods agg s' !! k.
Proof.
  intros Ht. unfold rolling, window. rewrite !list_lookup_imap. cbv beta.
  rewrite Ht.
  rewrite <- (lookup_take_lt s (S k) k), <- (lookup_take_lt s' (S k) k) by lia.
  by rewrite Ht.
Qed.

Lemma rolling_shift_past_only {B : Type} w min_periods (agg : list Q -> option B) :
  past_only (fun x => rolling w min_periods agg (shift 1 x)).
Proof.
  intros past cur cur' rest rest'. cbv beta.
  apply rolling_lookup_take. by rewrite !shift_1_take.
Qed.

Lemma lift2_past_only {A B C : Type} (op : A -> B -> C)
    (f : list (option Q) -> list (option A)) (g : list (option Q) -> list (option B)) :
  past_only f -> past_only g -> past_only (fun x => lift2 op (f x) (g x)).
Proof.
  intros Hf Hg past cur cur' rest rest'. cbv beta. unfold lift2. rewrite !lookup_zip_with.
  by rewrite (Hf past cur cur' rest rest'), (Hg past cur cur' rest rest').
Qed.

Lemma div_past_only (f g : list (option Q) -> list (option Q)) :
  past_only f -> past_only g -> past_only (fun x => div (f x) (g x)).
Proof.
  intros Hf Hg past cur cur' rest rest'. cbv beta. unfold div. rewrite !lookup_zip_with.
  by rewrite (Hf past cur cur' rest rest'), (Hg past cur cur' rest rest').
Qed.

Lemma add_scalar_past_only c (f : list (option Q) -> list (option Q)) :
  past_only f -> past_only (fun x => add_scalar c (f x)).
Proof.
  intros Hf past cur cur' rest rest'. cbv beta. unfold add_scalar. rewrite !list_lookup_fmap.
  by rewrite (Hf past cur cur' rest rest').
Qed.

(** ** The rows of a group before a row *)

Lemma filter_ext_elem {A : Type} (P1 P2 : A -> Prop)
    `{!forall x, Decision (P1 x), !forall x, Decision (P2 x)} (l : list A) :
  (forall x, x ∈ l -> P1 x <-> P2 x) -> filter P1 l = filter P2 l.
Proof.
  induction l as [|a l IH]; intros Hiff; [reflexivity|].
  rewrite !filter_cons.
  assert (Ha : P1 a <-> P2 a) by (apply Hiff; left).
  assert (Hl : filter P1 l = filter P2 l) by (apply IH; intros x Hx; apply Hiff; by right).
  destruct (decide (P1 a)), (decide (P2 a)); rewrite ?Hl; tauto.
Qed.

Lemma filter_none_elem {A : Type} (P : A -> Prop) `{!forall x, Decision (P x)}
    (l : list A) :
  (forall x, x ∈ l -> ~ P x) -> filter P l = [].
Proof.
  induction l as [|a l IH]; intros Hnone; [reflexivity|].
  rewrite filter_cons, decide_False by (apply Hnone; left).
  apply IH. intros x Hx. apply Hnone. by right.
Qed.

(** In an ordered frame the rows of the group of a row that come before it
    are the observations of the group dated before it. *)
Lemma ordered_past_app (l1 l2 : list Observation) o :
  ordered (l1 ++ o :: l2) ->
  past_of o (l1 ++ o :: l2) = filter (fun x => group_key x = group_key o) l1.
Proof.
  intros Hord. unfold past_of. rewrite filter_app, filter_cons.
  rewrite decide_False by lia.
  rewrite (filter_none_elem _ l2), app_nil_r.
  - apply filter_ext_elem. intros x Hx.
    assert (Hxo : earlier_in_group x o).
    { eapply (StronglySorted_app_1_elem_of _ _ _ _ _ Hord); [exact Hx|left]. }
    unfold earlier_in_group in Hxo. tauto.
  - intros x Hx [Hg Hd].
    apply StronglySorted_app_1_r in Hord. inversion Hord as [|? ? _ Hall]; subst.
    pose proof (proj1 (Forall_forall _ _) Hall x Hx) as Hox.
    unfold earlier_in_group in Hox. symmetry in Hg. specialize (Hox Hg). lia.
Qed.

Lemma ordered_past df i o :
  ordered df -> df !! i = Some o ->
  filter (fun x => group_key x = group_key o) (take i df) = past_of o df
  /\ exists rest,
       filter (fun x => group_key x = group_key o) df = past_of o df ++ o :: rest.
Proof.
  intros Hord Hi.
  pose proof (take_drop_middle df i o Hi) as Hsplit.
  assert (Hpast : past_of o df
                  = filter (fun x => group_key x = group_key o) (take i df)).
  { rewrite <- Hsplit in Hord. apply ordered_past_app in Hord.
    by rewrite Hsplit in Hord. }
  split; [done|].
  exists (filter (fun x => group_key x = group_key o) (drop (S i) df)).
  rewrite Hpast. rewrite <- Hsplit at 1.
  by rewrite filter_app, filter_cons, decide_True.
Qed.

Lemma groupby_transform_lookup {B : Type} (f : list (option Q) -> list (option B))
    df i o :
  df !! i = Some o ->
  groupby_transform f df !! i
  = Some (at_ (f ((fun x => Some (quantity x))
                    <$> filter (fun x => group_key x = group_key o) df))
              (length (filter (fun x => group_key x = group_key o) (take i df)))).
Proof. intros Hi. unfold groupby_transform. by rewrite list_lookup_imap, Hi. Qed.

(** The value a past-only transform gives a row of an ordered frame is
    fixed by the observations of the group dated before the row. *)
Lemma groupby_transform_past {B : Type} (f : list (option Q) -> list (option B))
    df i o :
  past_only f -> ordered df -> df !! i = Some o ->
  groupby_transform f df !! i
  = Some (at_ (f (((fun x => Some (quantity x)) <$> past_of o df) ++ [None]))
              (length (past_of o df))).
Proof.
  intros Hf Hord Hi. rewrite (groupby_transform_lookup f df i o Hi).
  destruct (ordered_past df i o Hord Hi) as (-> & rest & ->).
  rewrite fmap_app, fmap_cons. unfold at_. do 2 f_equal.
  rewrite <- (length_fmap (fun x => Some (quantity x)) (past_of o df)).
  apply Hf.
Qed.

(** ** The columns as functions of the past *)

Lemma length_shift {A : Type} n (s : list (option A)) : length (shift n s) = length s.
Proof. unfold shift. rewrite length_take, length_app. lia. Qed.

Lemma valid_fmap_Some {A B : Type} (g : A -> B) (l : list A) :
  valid ((fun x => Some (g x)) <$> l) = g <$> l.
Proof.
  induction l as [|a l IH]; [reflexivity|].
  unfold valid in *. cbn. f_equal. exact IH.
Qed.

Lemma shift_lookup_lagged n (past : list Observation) cur rest :
  mjoin (shift (S n) (((fun x => Some (quantity x)) <$> past) ++ cur :: rest)
         !! length past)
  = lagged (S n) past.
Proof.
  rewrite <- (length_fmap (fun x => Some (quantity x)) past) at 1.
  rewrite shift_lookup_past, length_fmap. unfold lagged. simpl pred.
  destruct (decide (length past <= n)) as [Hshort|Hlong].
  - rewrite lookup_app_l by (rewrite length_replicate; lia).
    rewrite lookup_replicate_2 by lia.
    by rewrite (lookup_ge_None_2 (reverse past)) by (rewrite length_reverse; lia).
  - rewrite lookup_app_r by (rewrite length_replicate; lia).
    rewrite length_replicate, list_lookup_fmap, reverse_lookup by lia.
    by destruct (past !! (length past - S n)).
Qed.

Lemma rolling_shift_lookup {B : Type} w (agg : list Q -> option B)
    (past : list (option Q)) cur rest :
  agg [] = None ->
  rolling w 1 agg (shift 1 (past ++ cur :: rest)) !! length past
  = Some (agg (valid (drop (length past - w) past))).
Proof.
  intros Hagg. unfold rolling. rewrite list_lookup_imap. cbv beta zeta.
  destruct (shift 1 (past ++ cur :: rest) !! length past) as [x|] eqn:Hx.
  - simpl. f_equal. unfold window. rewrite shift_1_take.
    assert (Hxs : valid (drop (S (length past) - w) (None :: past))
                  = valid (drop (length past - w) past)).
    { destruct (decide (w <= length past)) as [Hle|Hgt].
      - by replace (S (length past) - w) with (S (length past - w)) by lia.
      - replace (S (length past) - w) with 0 by lia.
        by replace (length past - w) with 0 by lia. }
    rewrite Hxs. destruct (valid (drop (length past - w) past)); [by rewrite Hagg|done].
  - apply lookup_ge_None_1 in Hx. rewrite length_shift, length_app in Hx.
    simpl in Hx. lia.
Qed.

Lemma qty_lag_lookup n df i o :
  ordered df -> df !! i = Some o ->
  at_ (qty_lag (S n) df) i = lagged (S n) (past_of o df).
Proof.
  intros Hord Hi. unfold at_, qty_lag.
  rewrite (groupby_transform_past _ df i o) by (done || (apply shift_past_only; lia)).
  simpl mjoin. unfold at_. apply shift_lookup_lagged.
Qed.

Lemma qty_rolling_lookup {B : Type} (agg : list Q -> option B) w df i o :
  agg [] = None -> ordered df -> df !! i = Some o ->
  qty_rolling agg w df !! i = Some (agg (recent w (past_of o df))).
Proof.
  intros Hagg Hord Hi. unfold qty_rolling.
  rewrite (groupby_transform_past _ df i o)
    by (done || apply rolling_shift_past_only).
  f_equal. unfold at_.
  rewrite <- (length_fmap (fun x => Some (quantity x)) (past_of o df)).
  rewrite (rolling_shift_lookup _ _ _ _ _ Hagg). simpl mjoin.
  rewrite length_fmap, <- fmap_drop. unfold recent. by rewrite valid_fmap_Some.
Qed.

Lemma add_lag_features_past df i o :
  ordered df -> df !! i = Some o ->
  add_lag_features df i = lags_of_past (past_of o df).
Proof.
  intros Hord Hi. unfold add_lag_features, lags_of_past.
  by rewrite !(qty_lag_lookup _ df i o Hord Hi).
Qed.

Lemma add_rolling_features_past df i o :
  ordered df -> df !! i = Some o ->
  add_rolling_features df i = rolling_of_past (past_of o df).
Proof.
  intros Hord Hi. unfold add_rolling_features, rolling_of_past, qty_rolling_std, fillna, at_.
  rewrite !list_lookup_fmap.
  by rewrite !(fun B agg w Hagg => @qty_rolling_lookup B agg w df i o Hagg Hord Hi).
Qed.

Section TwoFrames.

Variables (df df' : list Observation) (i i' : nat) (o o' : Observation).
Hypothesis df_ordered : ordered df.
Hypothesis df'_ordered : ordered df'.
Hypothesis row : df !! i = Some o.
Hypothesis row' : df' !! i' = Some o'.
Hypothesis same_past : past_of o df = past_of o' df'.

Lemma groupby_transform_same_past {B : Type} (f : list (option Q) -> list (option B)) :
  past_only f -> groupby_transform f df !! i = groupby_transform f df' !! i'.
Proof.
  intros Hf.
  rewrite (groupby_transform_past f df i o Hf df_ordered row).
  rewrite (groupby_transform_past f df' i' o' Hf df'_ordered row').
  by rewrite same_past.
Qed.

Lemma qty_lag_same_past n : 1 <= n -> qty_lag n df !! i = qty_lag n df' !! i'.
Proof. intros Hn. apply groupby_transform_same_past. by apply shift_past_only. Qed.

Lemma qty_rolling_same_past {B : Type} (agg : list Q -> option B) w :
  qty_rolling agg w df !! i = qty_rolling agg w df' !! i'.
Proof. apply groupby_transform_same_past, rolling_shift_past_only. Qed.

Lemma qty_rolling_std_same_past w :
  qty_rolling_std w df !! i = qty_rolling_std w df' !! i'.
Proof.
  unfold qty_rolling_std, fillna. rewrite !list_lookup_fmap.
  by rewrite qty_rolling_same_past.
Qed.

Lemma add_lag_features_same_past : add_lag_features df i = add_lag_features df' i'.
Proof.
  unfold add_lag_features, at_. by rewrite !qty_lag_same_past by lia.
Qed.

Lemma add_rolling_features_same_past :
  add_rolling_features df i = add_rolling_features df' i'.
Proof.
  unfold add_rolling_features, at_.
  by rewrite !qty_rolling_same_past, !qty_rolling_std_same_past.
Qed.

Lemma add_trend_features_same_past :
  add_trend_features df i = add_trend_features df' i'.
Proof.
  unfold add_trend_features. cbv zeta. unfold at_. f_equal; f_equal.
  - apply groupby_transform_same_past.
    apply lift2_past_only; apply shift_past_only; lia.
  - apply groupby_transform_same_past.
    apply div_past_only; [apply lift2_past_only|apply add_scalar_past_only];
      apply shift_past_only; lia.
  - unfold div, add_scalar. rewrite !lookup_zip_with, !list_lookup_fmap.
    by rewrite !qty_rolling_same_past.
Qed.

End TwoFrames.

(** ** The rows of the engineered frame *)

Lemma elem_of_engineer_features h df r :
  r ∈ engineer_features h df
  <-> notna r = true
      /\ exists i o,
           df !! i = Some o
           /\ r = mkFeatureRow o (add_date_features (date o))
                    (add_holiday_features h df (date o))
                    (add_lag_features df i) (add_rolling_features df i)
                    (add_trend_features df i).
Proof.
  unfold engineer_features, dropna, with_features. cbv zeta.
  rewrite list_elem_of_filter, list_elem_of_lookup.
  split.
  - intros [Hna [i Hi]]. split; [done|]. rewrite list_lookup_imap in Hi.
    destruct (df !! i) as [o|] eqn:Ho; [|discriminate].
    exists i, o. split; [done|]. simpl in Hi. by injection Hi as <-.
  - intros [Hna (i & o & Ho & ->)]. split; [done|]. exists i.
    by rewrite list_lookup_imap, Ho.
Qed.

(** Whether a row survives [dropna] is decided by its lag, rolling and
    trend columns. *)
Lemma notna_columns r r' :
  lags r = lags r' -> rolling_stats r = rolling_stats r' -> trend r = trend r' ->
  notna r = notna r'.
Proof. unfold notna. by intros -> -> ->. Qed.

Lemma past_of_before o df :
  past_of o df
  = filter (fun x => group_key x = group_key o)
           (filter (fun x => (date x < date o)%Z) df).
Proof. unfold past_of. by rewrite list_filter_filter. Qed.

(** C2, as the claim states it, fails on a frame that is not in date
    order: the lags are taken by row position. In the two frames the row of
    day 30 comes before the row of day 29, and the frames differ in the
    quantity of day 30 only; the observations before day 29 are the same,
    yet the lag and the rolling maximum of the output row of day 29 follow
    the quantity of day 30. *)
Lemma lag_feature_reads_a_later_row :
  past_of (mkObservation 19751 "P1" "L1" 240) (late_row_first 245)
  = past_of (mkObservation 19751 "P1" "L1" 240) (late_row_first 999)
  /\ (fun r => (date (obs r), qty_lag_1d (lags r), qty_rolling_max_7d (rolling_stats r)))
       <$> engineer_features no_holidays (late_row_first 245)
     = [(19752%Z, Some 235%Q, Some 235%Q); (19751%Z, Some 245%Q, Some 245%Q)]
  /\ (fun r => (date (obs r), qty_lag_1d (lags r), qty_rolling_max_7d (rolling_stats r)))
       <$> engineer_features no_holidays (late_row_first 999)
     = [(19752%Z, Some 235%Q, Some 235%Q); (19751%Z, Some 999%Q, Some 999%Q)].
Proof. split; [|split]; vm_compute; reflexivity. Qed.

(** C2, amended. In a frame whose rows come, within each (product,
    location) group, in strictly increasing date order, every lag feature
    and every rolling statistic of an output row of [engineer_features] is
    a function of the observations of the row's group dated strictly before
    the row: the lags are the quantities 1, 7, 14 and 28 observations back,
    the rolling statistics those of the last 7, 14 and 28 such
    observations. Hence two output rows (of two ordered frames, under any
    holiday calendars) with the same earlier observations of their group
    carry the same lag and rolling features; and when a second ordered frame
    agrees with the first on all observations dated before the row's date,
    its row of that group and date is an output row too, with these same
    features, whatever was appended or changed at that date or later. *)
Theorem lag_and_rolling_features_read_the_past_only h df r :
  ordered df ->
  r ∈ engineer_features h df ->
  lags r = lags_of_past (past_of (obs r) df)
  /\ rolling_stats r = rolling_of_past (past_of (obs r) df)
  /\ (forall h' df' r',
        ordered df' ->
        r' ∈ engineer_features h' df' ->
        past_of (obs r') df' = past_of (obs r) df ->
        lags r' = lags r /\ rolling_stats r' = rolling_stats r)
  /\ (forall h' df' o',
        ordered df' ->
        o' ∈ df' ->
        group_key o' = group_key (obs r) ->
        date o' = date (obs r) ->
        filter (fun x => (date x < date (obs r))%Z) df'
        = filter (fun x => (date x < date (obs r))%Z) df ->
        exists r',
          r' ∈ engineer_features h' df'
          /\ obs r' = o'
          /\ lags r' = lags r
          /\ rolling_stats r' = rolling_stats r).
Proof.
  intros Hord Hr.
  apply elem_of_engineer_features in Hr as [Hna (i & o & Hi & ->)]. cbn [obs lags rolling_stats].
  pose proof (add_lag_features_past df i o Hord Hi) as Hlags.
  pose proof (add_rolling_features_past df i o Hord Hi) as Hroll.
  split; [exact Hlags|]. split; [exact Hroll|]. split.
  - intros h' df' r' Hord' Hr' Hpast.
    apply elem_of_engineer_features in Hr' as [_ (i' & o' & Hi' & ->)].
    cbn [obs lags rolling_stats] in *.
    rewrite (add_lag_features_past df' i' o' Hord' Hi'), Hlags.
    rewrite (add_rolling_features_past df' i' o' Hord' Hi'), Hroll.
    by rewrite Hpast.
  - intros h' df' o' Hord' Ho' Hgroup Hdate Hbefore.
    apply list_elem_of_lookup in Ho' as [i' Hi'].
    assert (Hpast : past_of o df = past_of o' df').
    { rewrite !past_of_before, Hgroup, Hdate. by rewrite Hbefore. }
    pose proof (add_lag_features_same_past df df' i i' o o' Hord Hord' Hi Hi' Hpast)
      as Hl.
    pose proof (add_rolling_features_same_past df df' i i' o o' Hord Hord' Hi Hi' Hpast)
      as Hs.
    pose proof (add_trend_features_same_past df df' i i' o o' Hord Hord' Hi Hi' Hpast)
      as Ht.
    exists (mkFeatureRow o' (add_date_features (date o'))
              (add_holiday_features h' df' (date o'))
              (add_lag_features df' i') (add_rolling_features df' i')
              (add_trend_features df' i')).
    split; [|split; [reflexivity|]].
    + apply elem_of_engineer_features. split; [|by exists i', o'].
      rewrite <- Hna. by apply notna_columns.
    + by cbn [lags rolling_stats].
Qed.

Lemma lag_and_rolling_features_read_the_past_only_witness :
  exists r',
    r' ∈ engineer_features no_holidays thirty_days_revised
    /\ obs r' = mkObservation 19751 "P1" "L1" 7
    /\ lags r' = add_lag_features thirty_days 28
    /\ rolling_stats r' = add_rolling_features thirty_days 28.
Proof.
  pose (r := mkFeatureRow (mkObservation 19751 "P1" "L1" 240)
               (add_date_features 19751)
               (add_holiday_features two_holidays thirty_days 19751)
               (add_lag_features thirty_days 28) (add_rolling_features thirty_days 28)
               (add_trend_features thirty_days 28)).
  assert (Hord : ordered thirty_days)
    by (apply (bool_decide_unpack _); vm_compute; reflexivity).
  assert (Hr : r ∈ engineer_features two_holidays thirty_days)
    by (vm_compute; left).
  destruct (lag_and_rolling_features_read_the_past_only two_holidays thirty_days r
              Hord Hr) as (_ & _ & _ & Hlater).
  apply (Hlater no_holidays thirty_days_revised (mkObservation 19751 "P1" "L1" 7)).
  - apply (bool_decide_unpack _). vm_compute. reflexivity.
  - apply list_elem_of_In. vm_compute. tauto.
  - reflexivity.
  - reflexivity.
  - vm_compute. reflexivity.
Defined.

End LeakageProofs.

(** * The model registry: schema constraints, stamps and the audit log *)
Section RegistryInvariants.

Import Registry Scenario.

Implicit Types (tbl : list MLModel.row) (m : MLModel.row) (db : registry).

Lemma found_at_most_one (name ver : string) tbl :
  NoDup (key <$> tbl) ->
  length (filter (fun m => MLModel.model_name m = name /\ MLModel.version m = ver) tbl)
  <= 1.
Proof.
  intros Hkey.
  destruct (filter (fun m => MLModel.model_name m = name /\ MLModel.version m = ver) tbl)
    as [|m rest] eqn:Hfound; [simpl; lia|].
  assert (Hm : m ∈ filter (fun m => MLModel.model_name m = name
                                    /\ MLModel.version m = ver) tbl)
    by (rewrite Hfound; left).
  apply list_elem_of_filter in Hm as [[Hn Hv] Hin].
  pose proof (filter_key_unique tbl m Hkey Hin) as Hone.
  rewrite Hn, Hv, Hfound in Hone. injection Hone as ->. simpl. lia.
Qed.

Lemma filter_singleton {A : Type} (P : A -> Prop) `{!forall x, Decision (P x)}
    (l : list A) x :
  length (filter P l) = 1 -> x ∈ l -> P x -> filter P l = [x].
Proof.
  intros Hlen Hin HP.
  assert (Hx : x ∈ filter P l) by (apply list_elem_of_filter; done).
  destruct (filter P l) as [|y [|z rest]]; simpl in Hlen; try lia.
  by apply list_elem_of_singleton in Hx as ->.
Qed.

(** X1. The registry that [register_model] and [promote_model] build keeps the
    constraints of the [ml_model] table: the ids are distinct and below the
    auto-increment counter, and no two rows share (model_name, version).
    Hence the lookup of [promote_model] never finds several rows. *)
Theorem registry_operations_keep_schema_constraints db :
  reachable db ->
  NoDup (MLModel.id <$> ml_model db)
  /\ NoDup (key <$> ml_model db)
  /\ (forall m, m ∈ ml_model db -> MLModel.id m < ml_model_seq db)
  /\ (forall body user now,
        fst (promote_model body user now db) <> Raises MultipleResultsFound).
Proof.
  intros Hdb. destruct (reachable_well_formed db Hdb) as [Hid Hseq Hkey _].
  split; [exact Hid|]. split; [exact Hkey|]. split; [exact Hseq|].
  intros body user now.
  destruct (promote_model_cases body user now db)
    as [[_ ->]|[(m & _ & _ & ->)|[(m & _ & _ & ->)|[Hmany _]]]]; try discriminate.
  pose proof (found_at_most_one (req_model_name body) (req_version body)
                (ml_model db) Hkey).
  lia.
Qed.

Lemma registry_operations_keep_schema_constraints_witness :
  NoDup (MLModel.id <$> ml_model two_versions)
  /\ NoDup (key <$> ml_model two_versions)
  /\ (forall m, m ∈ ml_model two_versions -> MLModel.id m < ml_model_seq two_versions)
  /\ (forall body user now,
        fst (promote_model body user now two_versions) <> Raises MultipleResultsFound).
Proof.
  apply (registry_operations_keep_schema_constraints two_versions).
  unfold two_versions. apply reach_promote, reach_register, reach_register, reach_empty.
Defined.

(** X2. A version that [register_model] has just registered can be promoted
    at once: [promote_model] finds it, reports [staged] as the previous
    status, and afterwards it is the one production row of its name, with
    the id [register_model] returned and the caller's stamp. *)
Theorem registered_version_can_be_promoted
    name ver metrics user now db model_id db1 :
  reachable db ->
  register_model name ver metrics db = (Returns model_id, db1) ->
  exists resp db2,
    promote_model (mkPromoteReq name ver) user now db1 = (Returns resp, db2)
    /\ previous_status resp = staged
    /\ prod_rows name (ml_model db2)
       = [MLModel.mk model_id name ver metrics prod (Some now) (Some (email user))].
Proof.
  intros Hdb Hreg.
  assert (Hwf : well_formed db1).
  { replace db1 with (snd (register_model name ver metrics db)) by (by rewrite Hreg).
    by apply well_formed_register, reachable_well_formed. }
  unfold register_model in Hreg. case_decide as Hdup; [discriminate|].
  injection Hreg as <- <-.
  set (new := MLModel.mk (ml_model_seq db) name ver metrics staged None None) in *.
  set (db1 := mkRegistry (ml_model db ++ [new]) (S (ml_model_seq db))
                         (auth_audit_log db)) in *.
  assert (Hnew : new ∈ ml_model db1).
  { simpl. apply elem_of_app. right. left. }
  pose proof (filter_key_unique (ml_model db1) new (wf_unique_version db1 Hwf) Hnew)
    as Hfound.
  destruct (promote_model_cases (mkPromoteReq name ver) user now db1)
    as [[He _]|[(m & He & Hst & _)|[(m & He & Hst & Hp)|[He _]]]];
    cbn [req_model_name req_version] in *;
    change (MLModel.model_name new) with name in Hfound;
    change (MLModel.version new) with ver in Hfound;
    rewrite Hfound in He; try discriminate.
  - injection He as <-. discriminate.
  - injection He as <-. eexists _, _. split; [exact Hp|]. split; [reflexivity|].
    cbn [ml_model]. unfold prod_rows.
    apply filter_singleton.
    + apply (prod_rows_promoted (ml_model db1) new now (email user)
               (wf_primary_key db1 Hwf) Hnew).
    + assert (Hrow : set_promoted (MLModel.id new) now (email user)
                                  (archive_prod name new)
                     = MLModel.mk (ml_model_seq db) name ver metrics prod (Some now)
                                  (Some (email user))).
      { unfold archive_prod. rewrite decide_False by (intros [_ ?]; discriminate).
        unfold set_promoted. by rewrite decide_True. }
      rewrite <- Hrow. unfold promoted_table.
      apply list_elem_of_fmap_2, list_elem_of_fmap_2, Hnew.
    + done.
  - simpl in He. lia.
Qed.

Lemma registered_version_can_be_promoted_witness :
  exists resp db2,
    promote_model (mkPromoteReq "demand_forecast" "v3") admin 3000
      (snd (register_model "demand_forecast" "v3" "{}" two_versions))
    = (Returns resp, db2)
    /\ previous_status resp = staged
    /\ prod_rows "demand_forecast" (ml_model db2)
       = [MLModel.mk 3 "demand_forecast" "v3" "{}" prod (Some 3000%Z)
                     (Some "admin@indigoglass.example")].
Proof.
  apply (registered_version_can_be_promoted "demand_forecast" "v3" "{}" admin 3000%Z
           two_versions 3).
  - unfold two_versions. apply reach_promote, reach_register, reach_register, reach_empty.
  - vm_compute. reflexivity.
Defined.

(** X3. In the registry the two operations build, a model is in status
    [staged] exactly as long as it carries no promotion stamp: a promoted
    model, also once it is archived, keeps [promoted_at] and [promoted_by],
    and no model returns to [staged]. *)
Theorem promotion_stamp_marks_models_that_left_staged db m :
  reachable db ->
  m ∈ ml_model db ->
  (MLModel.status m = staged <-> MLModel.promoted_at m = None)
  /\ (MLModel.status m = staged <-> MLModel.promoted_by m = None).
Proof.
  intros Hdb. revert m. induction Hdb as [|name ver metrics db Hdb IH|body user now db Hdb IH];
    intros m Hm.
  - inversion Hm.
  - unfold register_model in Hm. case_decide; simpl in Hm; [by apply IH|].
    apply elem_of_app in Hm as [Hm|Hm]; [by apply IH|].
    apply list_elem_of_singleton in Hm as ->. done.
  - destruct (promote_model_cases body user now db)
      as [[_ He]|[(t & _ & _ & He)|[(t & _ & _ & He)|[_ He]]]];
      rewrite He in Hm; simpl in Hm; try (by apply IH).
    unfold promoted_table in Hm.
    apply list_elem_of_fmap in Hm as (y & -> & Hy).
    apply list_elem_of_fmap in Hy as (x & -> & Hx).
    destruct (IH x Hx) as [Hat Hby].
    unfold set_promoted, archive_prod.
    repeat case_decide; simpl; split; split; intros; try discriminate; intuition congruence.
Qed.

Lemma promotion_stamp_marks_models_that_left_staged_witness :
  (prod = staged <-> Some 1000%Z = None)
  /\ (prod = staged <-> Some "admin@indigoglass.example" = None).
Proof.
  apply (promotion_stamp_marks_models_that_left_staged two_versions
           (MLModel.mk 1 "demand_forecast" "v1" "{}" prod (Some 1000%Z)
                       (Some "admin@indigoglass.example"))).
  - unfold two_versions. apply reach_promote, reach_register, reach_register, reach_empty.
  - vm_compute. left.
Defined.

(** X4. The audit log: a successful promotion appends exactly one record, with
    the caller's id, the entity [model_name:version] and the status the
    target had; [register_model] writes none. So every record of the
    registry the two operations build is a promotion into [prod] of a
    model that was not in [prod] before. *)
Theorem audit_log_records_every_promotion :
  (forall body user now db resp db',
     promote_model body user now db = (Returns resp, db') ->
     auth_audit_log db'
     = auth_audit_log db
       ++ [mkAudit (sub user) "promote_model" "ml_model"
                   (req_model_name body ++ ":" ++ req_version body)
                   (previous_status resp) prod]
     /\ previous_status resp <> prod)
  /\ (forall body user now db e,
        fst (promote_model body user now db) = Raises e ->
        auth_audit_log (snd (promote_model body user now db)) = auth_audit_log db)
  /\ (forall name ver metrics db,
        auth_audit_log (snd (register_model name ver metrics db)) = auth_audit_log db)
  /\ (forall db,
        reachable db ->
        Forall (fun a => audit_action a = "promote_model"
                         /\ audit_entity_type a = "ml_model"
                         /\ audit_new_status a = prod
                         /\ audit_previous_status a <> prod)
               (auth_audit_log db)).
Proof.
  assert (Hpromote : forall body user now db resp db',
     promote_model body user now db = (Returns resp, db') ->
     auth_audit_log db'
     = auth_audit_log db
       ++ [mkAudit (sub user) "promote_model" "ml_model"
                   (req_model_name body ++ ":" ++ req_version body)
                   (previous_status resp) prod]
     /\ previous_status resp <> prod).
  { intros body user now db resp db' Hp.
    destruct (promote_model_cases body user now db)
      as [[_ He]|[(m & _ & _ & He)|[(m & _ & Hst & He)|[_ He]]]];
      rewrite He in Hp; try discriminate.
    injection Hp as <- <-. done. }
  assert (Hraise : forall body user now db e,
        fst (promote_model body user now db) = Raises e ->
        auth_audit_log (snd (promote_model body user now db)) = auth_audit_log db).
  { intros body user now db e.
    destruct (promote_model_cases body user now db)
      as [[_ ->]|[(m & _ & _ & ->)|[(m & _ & _ & ->)|[_ ->]]]]; simpl; done. }
  assert (Hregister : forall name ver metrics db,
        auth_audit_log (snd (register_model name ver metrics db)) = auth_audit_log db).
  { intros name ver metrics db. unfold register_model. by case_decide. }
  split; [exact Hpromote|]. split; [exact Hraise|]. split; [exact Hregister|].
  intros db Hdb. induction Hdb as [|name ver metrics db Hdb IH|body user now db Hdb IH].
  - constructor.
  - by rewrite Hregister.
  - destruct (promote_model body user now db) as [[resp|e] db'] eqn:Hp.
    + destruct (Hpromote _ _ _ _ _ _ Hp) as [Hlog Hprev]. simpl. rewrite Hlog.
      apply Forall_app. split; [exact IH|]. by repeat constructor.
    + specialize (Hraise body user now db e). rewrite Hp in Hraise. simpl in *.
      by rewrite Hraise.
Qed.

Lemma audit_log_records_every_promotion_witness :
  auth_audit_log two_versions
  = [mkAudit 1 "promote_model" "ml_model" "demand_forecast:v1" staged prod]
  /\ auth_audit_log second_promoted
     = auth_audit_log two_versions
       ++ [mkAudit 1 "promote_model" "ml_model" "demand_forecast:v2" staged prod].
Proof.
  split; [reflexivity|].
  refine (proj1 (proj1 audit_log_records_every_promotion
                   (mkPromoteReq "demand_forecast" "v2") admin 2000%Z two_versions
                   (mkPromoteResp "demand_forecast" "v2" staged prod 2000)
                   second_promoted _)).
  vm_compute. reflexivity.
Defined.

End RegistryInvariants.

(** * Forecast serving: rejections, the cache and the actuals *)
Section ForecastEdges.

Import Forecast Scenario.

Implicit Types (db : warehouse) (store : gmap string ForecastResponse).

Lemma filter_sku_nil db (sku : string) :
  sku ∉ DimProduct.sku <$> dim_product db ->
  filter (fun p => DimProduct.sku p = sku) (dim_product db) = [].
Proof.
  intros Hno.
  destruct (filter (fun p => DimProduct.sku p = sku) (dim_product db))
    as [|p rest] eqn:Hf; [reflexivity|exfalso].
  assert (Hp : p ∈ filter (fun p => DimProduct.sku p = sku) (dim_product db))
    by (rewrite Hf; left).
  apply list_elem_of_filter in Hp as [Hs Hin]. apply Hno. rewrite <- Hs.
  by apply list_elem_of_fmap_2.
Qed.

Lemma filter_region_nil db (region : string) :
  region ∉ DimLocation.region <$> dim_location db ->
  filter (fun l => DimLocation.region l = region) (dim_location db) = [].
Proof.
  intros Hno.
  destruct (filter (fun l => DimLocation.region l = region) (dim_location db))
    as [|l rest] eqn:Hf; [reflexivity|exfalso].
  assert (Hl : l ∈ filter (fun l => DimLocation.region l = region) (dim_location db))
    by (rewrite Hf; left).
  apply list_elem_of_filter in Hl as [Hr Hin]. apply Hno. rewrite <- Hr.
  by apply list_elem_of_fmap_2.
Qed.

(** X5. On a cache miss, [get_forecast] answers a SKU that no product has with
    the 404 naming the SKU and, the SKU being known, a region without any
    location with the 404 naming the region; the cache is left as it is. *)
Theorem get_forecast_rejects_unknown_sku_or_region
    today db _redis sku region start_date end_date include_actuals :
  cache_get _redis (cache_key_of today sku region end_date) = None ->
  NoDup (DimProduct.sku <$> dim_product db) ->
  (sku ∉ DimProduct.sku <$> dim_product db ->
   get_forecast today db _redis sku region start_date end_date include_actuals
   = (Raises (HTTPException 404 ("Product with SKU '" ++ sku ++ "' not found")),
      _redis))
  /\ (sku ∈ DimProduct.sku <$> dim_product db ->
      region ∉ DimLocation.region <$> dim_location db ->
      get_forecast today db _redis sku region start_date end_date include_actuals
      = (Raises (HTTPException 404
                   ("No locations found in region '" ++ region ++ "'")),
         _redis)).
Proof.
  intros Hmiss Hnd. split.
  - intros Hno. unfold get_forecast. fold (cache_key_of today sku region end_date).
    rewrite Hmiss, (filter_sku_nil db sku Hno). reflexivity.
  - intros Hsku Hno. apply list_elem_of_fmap in Hsku as (product & -> & Hin).
    unfold get_forecast.
    fold (cache_key_of today (DimProduct.sku product) region end_date).
    rewrite Hmiss, (filter_unique DimProduct.sku _ _ Hnd Hin). cbn [scalar_one_or_none].
    rewrite (filter_region_nil db region Hno). reflexivity.
Qed.

Lemma get_forecast_rejects_unknown_sku_or_region_witness :
  get_forecast today (serving_db prod) (Some ∅) "SKU-9" "EU" None None true
  = (Raises (HTTPException 404 "Product with SKU 'SKU-9' not found"), Some ∅)
  /\ get_forecast today (serving_db prod) (Some ∅) "SKU-1" "APAC" None None true
     = (Raises (HTTPException 404 "No locations found in region 'APAC'"), Some ∅).
Proof.
  split.
  - refine (proj1 (get_forecast_rejects_unknown_sku_or_region today (serving_db prod)
                     (Some ∅) "SKU-9" "EU" None None true _ _) _).
    + reflexivity.
    + apply (bool_decide_unpack _). vm_compute. reflexivity.
    + apply (bool_decide_unpack _). vm_compute. reflexivity.
  - refine (proj2 (get_forecast_rejects_unknown_sku_or_region today (serving_db prod)
                     (Some ∅) "SKU-1" "APAC" None None true _ _) _ _).
    + reflexivity.
    + apply (bool_decide_unpack _). vm_compute. reflexivity.
    + apply (bool_decide_unpack _). vm_compute. reflexivity.
    + apply (bool_decide_unpack _). vm_compute. reflexivity.
Defined.

(** X6. Before [init_redis] the endpoint works without a cache: every call
    gives the outcome it gives on an initialised, empty cache, and nothing
    is stored. *)
Theorem get_forecast_without_redis
    today db sku region start_date end_date include_actuals :
  get_forecast today db None sku region start_date end_date include_actuals
  = (fst (get_forecast today db (Some ∅) sku region start_date end_date
                       include_actuals),
     None).
Proof.
  unfold get_forecast. cbn [cache_get cache_set]. rewrite lookup_empty.
  repeat case_match; reflexivity.
Qed.

(** The first loop of the endpoint leaves [actual_units] unset. *)
Lemma forecast_dates_no_actuals (sel : list (Z * FactForecast.row)) acc :
  Forall (fun kp : Z * ForecastPoint => actual_units (snd kp) = None) acc ->
  Forall (fun kp : Z * ForecastPoint => actual_units (snd kp) = None)
    (foldl (fun d '(day, f) =>
              dict_set day
                (mkForecastPoint (Calendar.isoformat day)
                   (FactForecast.forecast_units f)
                   (FactForecast.prediction_interval_low f)
                   (FactForecast.prediction_interval_high f) None) d)
           acc sel).
Proof.
  revert acc. induction sel as [|[day f] sel IH]; intros acc Hacc; simpl; [exact Hacc|].
  apply IH.
  by apply (dict_set_Forall (fun _ p => actual_units p = None)).
Qed.

Lemma set_actual_sound (acts : list (Z * Z)) k u acc :
  (k, u) ∈ acts ->
  Forall (fun kp : Z * ForecastPoint =>
            forall v, actual_units (snd kp) = Some v -> (fst kp, v) ∈ acts) acc ->
  Forall (fun kp : Z * ForecastPoint =>
            forall v, actual_units (snd kp) = Some v -> (fst kp, v) ∈ acts)
         (set_actual k u acc).
Proof.
  intros Hin Hacc. unfold set_actual. apply Forall_fmap.
  eapply Forall_impl; [exact Hacc|]. intros [k' p] Hp. simpl in *.
  case_decide as Hk; simpl; [|exact Hp].
  intros v Hv. injection Hv as <-. by subst k'.
Qed.

Lemma actuals_loop_sound (all acts : list (Z * Z)) acc :
  (forall x, x ∈ acts -> x ∈ all) ->
  Forall (fun kp : Z * ForecastPoint =>
            forall v, actual_units (snd kp) = Some v -> (fst kp, v) ∈ all) acc ->
  Forall (fun kp : Z * ForecastPoint =>
            forall v, actual_units (snd kp) = Some v -> (fst kp, v) ∈ all)
         (foldl (fun d '(day, units) => set_actual day units d) acc acts).
Proof.
  revert acc. induction acts as [|[day units] acts IH]; intros acc Hsub Hacc; simpl;
    [exact Hacc|].
  apply IH.
  - intros x Hx. apply Hsub. by right.
  - apply set_actual_sound; [|exact Hacc]. apply Hsub. left.
Qed.

(** Every actual attached to a point is a sales figure the sales query
    returned for the date of the point; without [include_actuals] no point
    carries one. *)
Lemma collect_forecasts_actuals db product location ver start_key end_key incl :
  Forall (fun kp =>
            forall v, actual_units (snd kp) = Some v ->
              incl = true
              /\ (fst kp, v) ∈ select_actuals db product location start_key end_key)
    (collect_forecasts db product location ver start_key end_key incl).
Proof.
  unfold collect_forecasts.
  pose proof (forecast_dates_no_actuals
                (select_forecasts db product location ver start_key end_key) []
                (Forall_nil_2 _)) as Hnone.
  destruct incl.
  - eapply Forall_impl.
    + apply (actuals_loop_sound
               (select_actuals db product location start_key end_key)
               (select_actuals db product location start_key end_key)); [done|].
      eapply Forall_impl; [exact Hnone|]. intros kp Hkp v Hv. congruence.
    + intros kp Hkp v Hv. split; [done|by apply Hkp].
  - eapply Forall_impl; [exact Hnone|]. intros kp Hkp v Hv. congruence.
Qed.

Lemma elem_of_select_actuals db product location start_key end_key day u :
  (day, u) ∈ select_actuals db product location start_key end_key
  <-> exists s d,
        s ∈ fact_sales db /\ d ∈ dim_date db
        /\ FactSales.date_key s = DimDate.date_key d
        /\ FactSales.product_id s = product
        /\ FactSales.location_id s = location
        /\ (start_key <= FactSales.date_key s <= end_key)%Z
        /\ DimDate.date d = day
        /\ FactSales.units_sold s = u.
Proof.
  unfold select_actuals. rewrite list_elem_of_bind. split.
  - intros (s & Hin & Hs). apply list_elem_of_bind in Hin as (d & Hin & Hd).
    case_decide as Hc; [|inversion Hin].
    apply list_elem_of_singleton in Hin. injection Hin as -> ->.
    exists s, d. tauto.
  - intros (s & d & Hs & Hd & Hk & Hp & Hl & Hr & <- & <-).
    exists s. split; [|done]. apply list_elem_of_bind. exists d. split; [|done].
    rewrite decide_True by tauto. by apply list_elem_of_singleton.
Qed.

(** X7. The actuals of a freshly computed response. Without [include_actuals]
    no row carries [actual_units]. With it, the [actual_units] of a row is
    the [units_sold] of a [fact_sales] row in the requested range, of a
    product with the requested SKU and a location of the requested region,
    that [dim_date] places on the date of the row. *)
Theorem actuals_come_from_the_sales_of_the_day
    today db _redis sku region start_date end_date include_actuals response redis1 :
  cache_get _redis (cache_key_of today sku region end_date) = None ->
  get_forecast today db _redis sku region start_date end_date include_actuals
  = (Returns response, redis1) ->
  Forall (fun p =>
            forall u, actual_units p = Some u ->
              include_actuals = true
              /\ exists product location s d,
                   product ∈ dim_product db /\ DimProduct.sku product = sku
                   /\ location ∈ dim_location db /\ DimLocation.region location = region
                   /\ s ∈ fact_sales db /\ d ∈ dim_date db
                   /\ FactSales.date_key s = DimDate.date_key d
                   /\ FactSales.product_id s = DimProduct.product_id product
                   /\ FactSales.location_id s = DimLocation.location_id location
                   /\ (Calendar.date_key (default (today - 30)%Z start_date)
                       <= FactSales.date_key s
                       <= Calendar.date_key (default (today + 14)%Z end_date))%Z
                   /\ FactSales.units_sold s = u
                   /\ date p = Calendar.isoformat (DimDate.date d))
         (forecasts response).
Proof.
  intros Hmiss. unfold get_forecast. fold (cache_key_of today sku region end_date).
  rewrite Hmiss.
  destruct (filter (fun p => DimProduct.sku p = sku) (dim_product db))
    as [|product [|]] eqn:Hproduct; cbn [scalar_one_or_none]; try discriminate.
  destruct (head (filter (fun l => DimLocation.region l = region) (dim_location db)))
    as [location|] eqn:Hlocation; [|discriminate].
  destruct (head (select_assignment db (DimProduct.product_id product)
                                    (DimLocation.location_id location)))
    as [[a m]|]; intros Hcall; injection Hcall as <- _; [|constructor].
  cbn [forecasts]. apply Forall_fmap.
  assert (Hp : product ∈ dim_product db /\ DimProduct.sku product = sku).
  { assert (Hin : product ∈ filter (fun p => DimProduct.sku p = sku) (dim_product db))
      by (rewrite Hproduct; left).
    apply list_elem_of_filter in Hin. tauto. }
  assert (Hl : location ∈ dim_location db /\ DimLocation.region location = region).
  { apply head_Some in Hlocation as [rest Hrest].
    assert (Hin : location ∈ filter (fun l => DimLocation.region l = region)
                                    (dim_location db))
      by (rewrite Hrest; left).
    apply list_elem_of_filter in Hin. tauto. }
  pose proof (collect_forecasts_actuals db (DimProduct.product_id product)
                (DimLocation.location_id location) (MLModel.version m)
                (Calendar.date_key (default (today - 30)%Z start_date))
                (Calendar.date_key (default (today + 14)%Z end_date))
                include_actuals) as Hacts.
  pose proof (collect_forecasts_sound db (DimProduct.product_id product)
                (DimLocation.location_id location) (MLModel.version m)
                (Calendar.date_key (default (today - 30)%Z start_date))
                (Calendar.date_key (default (today + 14)%Z end_date))
                include_actuals) as Hsound.
  apply Forall_forall. intros [k p] Hkp.
  pose proof (proj1 (Forall_forall _ _) Hacts _ Hkp) as Hact.
  pose proof (proj1 (Forall_forall _ _) Hsound _ Hkp) as (f & _ & Hdate & _).
  intros u Hu. simpl in *.
  destruct (Hact u Hu) as [Hincl Hin]. split; [exact Hincl|].
  apply elem_of_select_actuals in Hin as (s & d & Hs & Hd & Hk & Hsp & Hsl & Hr & Hday & Hunits).
  exists product, location, s, d. rewrite Hdate, Hday. tauto.
Qed.

Lemma actuals_come_from_the_sales_of_the_day_witness :
  Forall (fun p => forall u, actual_units p = Some u -> false = true /\
            exists product location s d,
                   product ∈ dim_product (serving_db prod)
                   /\ DimProduct.sku product = "SKU-1"
                   /\ location ∈ dim_location (serving_db prod)
                   /\ DimLocation.region location = "EU"
                   /\ s ∈ fact_sales (serving_db prod) /\ d ∈ dim_date (serving_db prod)
                   /\ FactSales.date_key s = DimDate.date_key d
                   /\ FactSales.product_id s = DimProduct.product_id product
                   /\ FactSales.location_id s = DimLocation.location_id location
                   /\ (Calendar.date_key (default (today - 30)%Z None)
                       <= FactSales.date_key s
                       <= Calendar.date_key (default (today + 14)%Z None))%Z
                   /\ FactSales.units_sold s = u
                   /\ date p = Calendar.isoformat (DimDate.date d))
    [mkForecastPoint "2024-01-10" 50 40 60 None;
     mkForecastPoint "2024-01-11" 55 45 65 None].
Proof.
  refine (actuals_come_from_the_sales_of_the_day today (serving_db prod) (Some ∅)
            "SKU-1" "EU" None None false
            (mkForecastResponse "SKU-1" "EU" "v1" "demand_forecast" "{}"
               [mkForecastPoint "2024-01-10" 50 40 60 None;
                mkForecastPoint "2024-01-11" 55 45 65 None])
            (cache_set (Some ∅) (cache_key_of today "SKU-1" "EU" None)
               (mkForecastResponse "SKU-1" "EU" "v1" "demand_forecast" "{}"
                  [mkForecastPoint "2024-01-10" 50 40 60 None;
                   mkForecastPoint "2024-01-11" 55 45 65 None])) _ _).
  - reflexivity.
  - vm_compute. reflexivity.
Defined.

(** ** The cache key *)

Lemma append_assoc (s1 s2 s3 : string) : ((s1 ++ s2) ++ s3 = s1 ++ s2 ++ s3)%string.
Proof.
  induction s1 as [|c s1 IH]; [reflexivity|].
  change (String c ((s1 ++ s2) ++ s3) = String c (s1 ++ s2 ++ s3))%string.
  by rewrite IH.
Qed.

(** X8. The cache key does not keep its fields apart: a colon inside the SKU or
    the region moves the boundary. A request for the SKU [a:b] in region
    [c] reads and writes the entry of the SKU [a] in region [b:c], so it is
    answered with the response cached for that other pair. *)
Theorem forecast_cache_key_is_ambiguous (a b c : string) :
  (forall d,
     forecast_cache_key (a ++ ":" ++ b) c d = forecast_cache_key a (b ++ ":" ++ c) d)
  /\ (forall today db1 db2 store start1 start2 end_date incl1 incl2 first redis1,
        get_forecast today db1 (Some store) a (b ++ ":" ++ c) start1 end_date incl1
        = (Returns first, redis1) ->
        first <> no_model_assigned a (b ++ ":" ++ c) ->
        get_forecast today db2 redis1 (a ++ ":" ++ b) c start2 end_date incl2
        = (Returns first, redis1)).
Proof.
  assert (Hkey : forall d,
     forecast_cache_key (a ++ ":" ++ b) c d = forecast_cache_key a (b ++ ":" ++ c) d).
  { intros d. unfold forecast_cache_key. by rewrite !append_assoc. }
  split; [exact Hkey|].
  intros today db1 db2 store start1 start2 end_date incl1 incl2 first redis1 Hcall Hserved.
  apply get_forecast_hit. unfold cache_key_of. rewrite Hkey.
  fold (cache_key_of today a (b ++ ":" ++ c) end_date).
  apply get_forecast_returns in Hcall as [[Hhit ->] | [[-> _] | ->]].
  - exact Hhit.
  - contradiction.
  - cbn [cache_get]. apply lookup_insert_eq.
Qed.

Lemma forecast_cache_key_is_ambiguous_witness :
  forecast_cache_key "SKU:1" "EU" "2024-01-22" = forecast_cache_key "SKU" "1:EU" "2024-01-22".
Proof. apply (proj1 (forecast_cache_key_is_ambiguous "SKU" "1" "EU")). Defined.

End ForecastEdges.

(** * Training: the metrics need rows in both partitions *)
Section TrainEdges.

Import Pandas Train Scenario.

Lemma check_reg_targets_returns (y_true y_pred : list Q) :
  check_reg_targets y_true y_pred = Returns tt
  <-> length y_true = length y_pred /\ y_true <> [].
Proof.
  unfold check_reg_targets.
  destruct (length y_true =? length y_pred) eqn:Hlen; simpl.
  - apply Nat.eqb_eq in Hlen.
    destruct (length y_true =? 0) eqn:Hnil.
    + apply Nat.eqb_eq in Hnil. split; [discriminate|].
      intros [_ Hne]. by destruct y_true.
    + apply Nat.eqb_neq in Hnil. split; [|done]. intros _. split; [done|].
      by intros ->.
  - apply Nat.eqb_neq in Hlen. split; [discriminate|]. by intros [? _].
Qed.

(** X15. [train_xgboost_model] returns a model and its metrics exactly when the
    training and the test targets both hold at least one row and the
    regressor predicts one value per row; on an empty partition, as the
    hold-out split can return, the metric functions raise and no model
    comes back. The model returned is the one fitted on the training
    partition. *)
Theorem training_returns_only_with_rows_in_both_partitions {X M : Type}
    (fit : list X -> list Q -> M) (predict : M -> list X -> list Q)
    X_train y_train X_test y_test :
  (exists model metrics,
     train_xgboost_model fit predict X_train y_train X_test y_test
     = Returns (model, metrics))
  <-> (y_train <> [] /\ y_test <> []
       /\ length (predict (fit X_train y_train) X_train) = length y_train
       /\ length (predict (fit X_train y_train) X_test) = length y_test).
Proof.
  unfold train_xgboost_model, mean_absolute_error, mean_squared_error,
    mean_absolute_percentage_error. cbv zeta.
  split.
  - intros (model & metrics & H).
    destruct (check_reg_targets y_train (predict (fit X_train y_train) X_train))
      as [[]|] eqn:Htrain; simpl in H; [|discriminate].
    destruct (check_reg_targets y_test (predict (fit X_train y_train) X_test))
      as [[]|] eqn:Htest; simpl in H; [|discriminate].
    apply check_reg_targets_returns in Htrain as [? ?].
    apply check_reg_targets_returns in Htest as [? ?]. done.
  - intros (Htrain & Htest & Hlen_train & Hlen_test).
    rewrite (proj2 (check_reg_targets_returns y_train _)) by done.
    rewrite (proj2 (check_reg_targets_returns y_test _)) by done.
    simpl. eauto.
Qed.

Lemma training_returns_only_with_rows_in_both_partitions_witness :
  (exists model metrics,
     train_xgboost_model echo_fit echo_predict [1; 2]%Q [1; 2]%Q [3]%Q [3]%Q
     = Returns (model, metrics))
  /\ ~ (exists model metrics,
          train_xgboost_model echo_fit echo_predict [] [] [3]%Q [3]%Q
          = Returns (model, metrics)).
Proof.
  split.
  - apply (proj2 (training_returns_only_with_rows_in_both_partitions
                    echo_fit echo_predict [1; 2]%Q [1; 2]%Q [3]%Q [3]%Q)).
    repeat split; discriminate.
  - intros H.
    apply (proj1 (training_returns_only_with_rows_in_both_partitions
                    echo_fit echo_predict [] [] [3]%Q [3]%Q)) in H.
    by destruct H as [H _].
Defined.

End TrainEdges.

(** * Feature engineering: warm-up rows, holiday columns and the order of
      the split *)
Section FeatureEdges.

Import Pandas Features Scenario.

Implicit Types (df : list Observation) (o : Observation) (r : FeatureRow).

(** ** The rows dropped for the 28-row lag *)

Lemma shift_lookup_early {A : Type} n (s : list (option A)) k :
  k < n -> mjoin (shift n s !! k) = None.
Proof.
  intros Hk. unfold shift. destruct (decide (k < length s)) as [Hlt|Hge].
  - rewrite lookup_take_lt by done.
    rewrite lookup_app_l by (rewrite length_replicate; lia).
    by rewrite lookup_replicate_2 by lia.
  - by rewrite lookup_take_ge by lia.
Qed.

Lemma notna_qty_lag_28d r : notna r = true -> is_Some (qty_lag_28d (lags r)).
Proof.
  unfold notna. cbv zeta. intros H.
  repeat (apply andb_prop in H as [H ?]).
  match goal with
  | Hx : bool_decide (is_Some (qty_lag_28d _)) = true |- _ =>
      by apply bool_decide_eq_true in Hx
  end.
Qed.

(** X9. Every output row stands after at least 28 rows of its own group: the
    first 28 rows of each group are dropped, and a frame of at most 28
    rows gives no output row at all. *)
Theorem output_rows_follow_28_rows_of_their_group h df :
  (forall r,
     r ∈ engineer_features h df ->
     exists i,
       df !! i = Some (obs r)
       /\ 28 <= length (filter (fun x => group_key x = group_key (obs r)) (take i df)))
  /\ (length df <= 28 -> engineer_features h df = []).
Proof.
  assert (Hrows : forall r,
     r ∈ engineer_features h df ->
     exists i,
       df !! i = Some (obs r)
       /\ 28 <= length (filter (fun x => group_key x = group_key (obs r)) (take i df))).
  { intros r Hr. apply elem_of_engineer_features in Hr as [Hna (i & o & Hi & ->)].
    apply notna_qty_lag_28d in Hna. cbn [obs lags] in *.
    exists i. split; [exact Hi|].
    destruct (decide (28 <= length (filter (fun x => group_key x = group_key o)
                                           (take i df)))) as [Hle|Hlt]; [exact Hle|].
    exfalso. unfold add_lag_features in Hna. cbn [qty_lag_28d] in Hna.
    unfold at_, qty_lag in Hna.
    rewrite (groupby_transform_lookup _ df i o Hi) in Hna. simpl mjoin in Hna.
    unfold at_ in Hna. rewrite shift_lookup_early in Hna by lia.
    by destruct Hna. }
  split; [exact Hrows|].
  intros Hshort.
  destruct (engineer_features h df) as [|r rest] eqn:Hout; [reflexivity|exfalso].
  destruct (Hrows r) as (i & Hi & Hlen); [left|].
  apply lookup_lt_Some in Hi.
  pose proof (length_filter (fun x => group_key x = group_key (obs r)) (take i df)).
  rewrite length_take in *. lia.
Qed.

Lemma output_rows_follow_28_rows_of_their_group_witness :
  engineer_features two_holidays (daily_sales 28) = [].
Proof.
  apply (proj2 (output_rows_follow_28_rows_of_their_group two_holidays (daily_sales 28))).
  vm_compute. lia.
Defined.

(** ** The holiday columns *)

(** X10. The holiday calendar decides the holiday columns only: the rows that
    survive [dropna] and all their other columns are the same under any
    two calendars. *)
Theorem holiday_calendar_changes_holiday_columns_only h h' df :
  (fun r => (obs r, calendar r, lags r, rolling_stats r, trend r))
    <$> engineer_features h df
  = (fun r => (obs r, calendar r, lags r, rolling_stats r, trend r))
      <$> engineer_features h' df.
Proof.
  unfold engineer_features, dropna, with_features.
  apply filter_imap_proj; intros i o; reflexivity.
Qed.

Lemma sorted_elem_of (l : list Z) x : x ∈ sorted l <-> x ∈ l.
Proof. unfold sorted. by rewrite merge_sort_Permutation. Qed.

Lemma sorted_StronglySorted (l : list Z) : StronglySorted Z.le (sorted l).
Proof. apply StronglySorted_merge_sort; apply _. Qed.

(** The first element a filter keeps of an ascending list is the least
    element with the property, the last one the greatest. *)
Lemma filter_head_least (P : Z -> Prop) `{!forall x, Decision (P x)} (l : list Z) h rest :
  StronglySorted Z.le l -> filter P l = h :: rest ->
  P h /\ h ∈ l /\ forall x, x ∈ l -> P x -> (h <= x)%Z.
Proof.
  induction 1 as [|a l Hl IH Hall]; intros Hf; [discriminate|].
  rewrite filter_cons in Hf. destruct (decide (P a)) as [Ha|Ha].
  - injection Hf as <- _. split; [done|]. split; [left|].
    intros x Hx _. apply elem_of_cons in Hx as [->|Hx]; [lia|].
    by apply (proj1 (Forall_forall _ _) Hall).
  - destruct (IH Hf) as (Hh & Hin & Hmin). split; [done|]. split; [by right|].
    intros x Hx HPx. apply elem_of_cons in Hx as [->|Hx]; [contradiction|].
    by apply Hmin.
Qed.

Lemma filter_last_greatest (P : Z -> Prop) `{!forall x, Decision (P x)} (l : list Z) h :
  StronglySorted Z.le l -> last (filter P l) = Some h ->
  P h /\ h ∈ l /\ forall x, x ∈ l -> P x -> (x <= h)%Z.
Proof.
  induction 1 as [|a l Hl IH Hall]; intros Hf; [discriminate|].
  rewrite filter_cons in Hf. destruct (decide (P a)) as [Ha|Ha].
  - destruct (filter P l) as [|b rest] eqn:Hrest.
    + injection Hf as <-. split; [done|]. split; [left|].
      intros x Hx HPx. apply elem_of_cons in Hx as [->|Hx]; [lia|].
      exfalso. by apply (filter_nil_not_elem_of P l x Hrest HPx).
    + change (last (b :: rest) = Some h) in Hf.
      destruct (IH Hf) as (Hh & Hin & Hmax). split; [done|]. split; [by right|].
      intros x Hx HPx. apply elem_of_cons in Hx as [->|Hx]; [|by apply Hmax].
      by apply (proj1 (Forall_forall _ _) Hall).
  - destruct (IH Hf) as (Hh & Hin & Hmax). split; [done|]. split; [by right|].
    intros x Hx HPx. apply elem_of_cons in Hx as [->|Hx]; [contradiction|].
    by apply Hmax.
Qed.

(** X11. The holiday columns of a date [d]. [is_holiday] flags the dates of the
    calendar; [days_to_holiday] is the distance to the nearest later
    holiday and [days_since_holiday] the distance to the nearest earlier
    one, each at least 1 and capped at 30, the cap standing also for no
    such holiday. *)
Theorem holiday_distances_are_nearest_and_capped country_holidays df d :
  let f := add_holiday_features country_holidays df d in
  let holidays := country_holidays (remove_dups (Calendar.year <$> (date <$> df))) in
  (1 <= days_to_holiday f <= 30)%Z
  /\ (1 <= days_since_holiday f <= 30)%Z
  /\ (is_holiday f = 1%Z <-> d ∈ holidays)
  /\ (is_holiday f = 0%Z <-> d ∉ holidays)
  /\ (forall x, x ∈ holidays -> (d < x)%Z -> (days_to_holiday f <= x - d)%Z)
  /\ ((days_to_holiday f < 30)%Z -> (d + days_to_holiday f)%Z ∈ holidays)
  /\ (forall x, x ∈ holidays -> (x < d)%Z -> (days_since_holiday f <= d - x)%Z)
  /\ ((days_since_holiday f < 30)%Z -> (d - days_since_holiday f)%Z ∈ holidays).
Proof.
  intros f holidays. unfold f, add_holiday_features. fold holidays.
  cbn [days_to_holiday days_since_holiday is_holiday]. unfold clip_upper.
  pose proof (sorted_StronglySorted holidays) as Hsorted.
  assert (Hto :
    (1 <= days_to_holiday_raw (sorted holidays) d)%Z
    /\ (forall x, x ∈ holidays -> (d < x)%Z ->
          (days_to_holiday_raw (sorted holidays) d <= x - d)%Z)
    /\ ((days_to_holiday_raw (sorted holidays) d < 30)%Z ->
          (d + days_to_holiday_raw (sorted holidays) d)%Z ∈ holidays)).
  { unfold days_to_holiday_raw.
    destruct (filter (fun h => (d < h)%Z) (sorted holidays)) as [|h rest] eqn:Hf.
    - split; [lia|]. split; [|lia].
      intros x Hx Hlt. exfalso.
      apply (filter_nil_not_elem_of _ _ x Hf Hlt). by apply sorted_elem_of.
    - destruct (filter_head_least _ _ _ _ Hsorted Hf) as (Hh & Hin & Hmin).
      split; [lia|]. split.
      + intros x Hx Hlt. apply sorted_elem_of in Hx. specialize (Hmin x Hx Hlt). lia.
      + intros _. replace (d + (h - d))%Z with h by lia. by apply sorted_elem_of. }
  assert (Hsince :
    (1 <= days_since_holiday_raw (sorted holidays) d)%Z
    /\ (forall x, x ∈ holidays -> (x < d)%Z ->
          (days_since_holiday_raw (sorted holidays) d <= d - x)%Z)
    /\ ((days_since_holiday_raw (sorted holidays) d < 30)%Z ->
          (d - days_since_holiday_raw (sorted holidays) d)%Z ∈ holidays)).
  { unfold days_since_holiday_raw.
    destruct (last (filter (fun h => (h < d)%Z) (sorted holidays))) as [h|] eqn:Hf.
    - destruct (filter_last_greatest _ _ _ Hsorted Hf) as (Hh & Hin & Hmax).
      split; [lia|]. split.
      + intros x Hx Hlt. apply sorted_elem_of in Hx. specialize (Hmax x Hx Hlt). lia.
      + intros _. replace (d - (d - h))%Z with h by lia. by apply sorted_elem_of.
    - apply last_None in Hf. split; [lia|]. split; [|lia].
      intros x Hx Hlt. exfalso.
      apply (filter_nil_not_elem_of _ _ x Hf Hlt). by apply sorted_elem_of. }
  destruct Hto as (Hto1 & Hto2 & Hto3). destruct Hsince as (Hs1 & Hs2 & Hs3).
  split; [lia|]. split; [lia|].
  split; [|split; [|split; [|split; [|split]]]].
  - unfold astype_int. case_bool_decide; split; intros; done || lia.
  - unfold astype_int. case_bool_decide; split; intros; done || lia.
  - intros x Hx Hlt. specialize (Hto2 x Hx Hlt). lia.
  - intros Hlt. rewrite Z.min_l by lia. apply Hto3. lia.
  - intros x Hx Hlt. specialize (Hs2 x Hx Hlt). lia.
  - intros Hlt. rewrite Z.min_l by lia. apply Hs3. lia.
Qed.

Lemma holiday_distances_are_nearest_and_capped_witness :
  (19730 + days_to_holiday (add_holiday_features two_holidays thirty_days 19730))%Z
  ∈ two_holidays (remove_dups (Calendar.year <$> (date <$> thirty_days)))
  /\ days_to_holiday (add_holiday_features two_holidays thirty_days 19730) = 7%Z.
Proof.
  split; [|vm_compute; reflexivity].
  destruct (holiday_distances_are_nearest_and_capped two_holidays thirty_days 19730)
    as (_ & _ & _ & _ & _ & Hnext & _).
  apply Hnext. vm_compute. reflexivity.
Defined.

(** ** The order of the hold-out split *)

Lemma date_le_total : Total date_le.
Proof. intros a b. unfold date_le. lia. Qed.

Lemma date_le_transitive : Transitive date_le.
Proof. intros a b c. unfold date_le. lia. Qed.

Lemma StronglySorted_filter {A : Type} (R : relation A) (P : A -> Prop)
    `{!forall x, Decision (P x)} (l : list A) :
  StronglySorted R l -> StronglySorted R (filter P l).
Proof.
  induction 1 as [|a l Hl IH Hall]; [constructor|].
  rewrite filter_cons. destruct (decide (P a)); [|exact IH].
  constructor; [exact IH|].
  apply Forall_forall. intros x Hx. apply list_elem_of_filter in Hx as [_ Hx].
  by apply (proj1 (Forall_forall _ _) Hall).
Qed.

(** X12. The hold-out split keeps time order: each partition comes out in
    ascending date order, and every training row is dated strictly before
    every test row. *)
Theorem holdout_split_respects_time_order (df : list FeatureRow) test_days :
  StronglySorted date_le (fst (split_frames df test_days))
  /\ StronglySorted date_le (snd (split_frames df test_days))
  /\ (forall a b,
        a ∈ fst (split_frames df test_days) ->
        b ∈ snd (split_frames df test_days) ->
        (date (obs a) < date (obs b))%Z).
Proof.
  unfold split_frames.
  assert (Hsorted : StronglySorted date_le (sort_values df)).
  { apply (@StronglySorted_merge_sort _ date_le _ date_le_transitive date_le_total). }
  destruct (max_date (sort_values df)) as [latest|]; cbn [fst snd].
  - split; [by apply StronglySorted_filter|]. split; [by apply StronglySorted_filter|].
    intros a b Ha Hb.
    apply list_elem_of_filter in Ha as [Ha _]. apply list_elem_of_filter in Hb as [Hb _].
    lia.
  - split; [constructor|]. split; [constructor|]. intros a b Ha. inversion Ha.
Qed.

Lemma holdout_split_respects_time_order_witness :
  Forall (fun a =>
            Forall (fun b => (date (obs a) < date (obs b))%Z)
                   (snd (split_frames (engineer_features two_holidays thirty_days) 1)))
         (fst (split_frames (engineer_features two_holidays thirty_days) 1))
  /\ length (fst (split_frames (engineer_features two_holidays thirty_days) 1)) = 1
  /\ length (snd (split_frames (engineer_features two_holidays thirty_days) 1)) = 1.
Proof.
  split; [|split; vm_compute; reflexivity].
  apply Forall_forall. intros a Ha. apply Forall_forall. intros b Hb.
  apply (proj2 (proj2 (holdout_split_respects_time_order
                         (engineer_features two_holidays thirty_days) 1)) a b Ha Hb).
Defined.

End FeatureEdges.

(** * Role checks and the distributed lock *)
Section AccessProofs.

Import Security Lock Scenario.

Lemma role_in_viewer r : r ∈ [ADMIN; ANALYST; VIEWER].
Proof. destruct r; repeat constructor. Qed.

Lemma role_in_analyst r : r ∈ [ADMIN; ANALYST] <-> r <> VIEWER.
Proof.
  rewrite !elem_of_cons, elem_of_nil. destruct r; intuition congruence.
Qed.

Lemma role_in_admin r : r ∈ [ADMIN] <-> r = ADMIN.
Proof. apply list_elem_of_singleton. Qed.

(** X13. The role checks. Only an access token passes: a refresh token is
    turned away with the 401 before its role is looked at, whatever the
    role. Among access tokens the three checks are nested: whoever passes
    [require_admin] passes [require_analyst], whoever passes
    [require_analyst] passes [require_viewer], and [require_viewer] admits
    every access token. A check that admits a caller returns the decoded
    payload unchanged; a role that is not allowed gets the 403 naming it. *)
Theorem role_checks_are_nested_and_need_an_access_token
    (decode_token : string -> outcome TokenPayload) (credentials : string) :
  (forall allowed u,
     require_role decode_token allowed credentials = Returns u ->
     decode_token credentials = Returns u
     /\ type u = "access" /\ role u ∈ allowed)
  /\ (forall u,
        decode_token credentials = Returns u -> type u <> "access" ->
        forall allowed,
          require_role decode_token allowed credentials
          = Raises (HTTPException 401 "Invalid token type"))
  /\ (forall u,
        decode_token credentials = Returns u -> type u = "access" ->
        require_viewer decode_token credentials = Returns u
        /\ (require_analyst decode_token credentials = Returns u
            <-> role u <> VIEWER)
        /\ (require_admin decode_token credentials = Returns u
            <-> role u = ADMIN)
        /\ (role u = VIEWER ->
            require_analyst decode_token credentials
            = Raises (HTTPException 403 "Role 'viewer' not authorized for this action")))
  /\ (forall u,
        require_admin decode_token credentials = Returns u ->
        require_analyst decode_token credentials = Returns u)
  /\ (forall u,
        require_analyst decode_token credentials = Returns u ->
        require_viewer decode_token credentials = Returns u).
Proof.
  assert (Hreturns : forall allowed u,
     require_role decode_token allowed credentials = Returns u ->
     decode_token credentials = Returns u
     /\ type u = "access" /\ role u ∈ allowed).
  { intros allowed u. unfold require_role, get_current_user.
    destruct (decode_token credentials) as [p|e]; [|discriminate].
    destruct (decide (type p <> "access")) as [Hty|Hty]; [discriminate|].
    destruct (decide (role p ∉ allowed)) as [Hno|Hyes]; [discriminate|].
    intros Hu. injection Hu as <-. split; [done|].
    split; [by destruct (decide (type p = "access"))|].
    by destruct (decide (role p ∈ allowed)). }
  assert (Haccess : forall allowed u,
     decode_token credentials = Returns u -> type u = "access" -> role u ∈ allowed ->
     require_role decode_token allowed credentials = Returns u).
  { intros allowed u Hd Hty Hrole. unfold require_role, get_current_user.
    rewrite Hd. rewrite decide_False by (intros Hne; contradiction).
    by rewrite decide_False by (intros Hne; contradiction). }
  split; [exact Hreturns|]. split; [|split; [|split]].
  - intros u Hd Hty allowed. unfold require_role, get_current_user.
    rewrite Hd. by rewrite decide_True.
  - intros u Hd Hty. split; [|split; [|split]].
    + apply Haccess; [done..|]. apply role_in_viewer.
    + split.
      * intros Hr. apply Hreturns in Hr as (_ & _ & Hr). by apply role_in_analyst.
      * intros Hv. apply Haccess; [done..|]. by apply role_in_analyst.
    + split.
      * intros Hr. apply Hreturns in Hr as (_ & _ & Hr). by apply role_in_admin.
      * intros Hv. apply Haccess; [done..|]. by apply role_in_admin.
    + intros Hv. unfold require_analyst, require_role, get_current_user.
      rewrite Hd. rewrite decide_False by (intros Hne; contradiction).
      rewrite Hv. rewrite decide_True; [done|].
      intros Hin. by apply role_in_analyst in Hin.
  - intros u Hr. apply Hreturns in Hr as (Hd & Hty & Hr).
    apply Haccess; [done..|]. apply role_in_admin in Hr. apply role_in_analyst.
    by rewrite Hr.
  - intros u Hr. apply Hreturns in Hr as (Hd & Hty & Hr).
    apply Haccess; [done..|]. apply role_in_viewer.
Qed.

Lemma role_checks_are_nested_and_need_an_access_token_witness :
  require_analyst demo_decode "analyst-access"
  = Returns (mkPayload "2" "analyst@indigoglass.example" ANALYST "access")
  /\ require_viewer demo_decode "analyst-access"
     = Returns (mkPayload "2" "analyst@indigoglass.example" ANALYST "access")
  /\ require_admin demo_decode "admin-refresh"
     = Raises (HTTPException 401 "Invalid token type").
Proof.
  destruct (role_checks_are_nested_and_need_an_access_token demo_decode "analyst-access")
    as (_ & _ & _ & _ & Hviewer).
  destruct (role_checks_are_nested_and_need_an_access_token demo_decode "admin-refresh")
    as (_ & Hrefresh & _).
  split; [reflexivity|]. split.
  - apply Hviewer. reflexivity.
  - apply (Hrefresh (mkPayload "1" "admin@indigoglass.example" ADMIN "refresh")).
    + reflexivity.
    + discriminate.
Defined.

Lemma lock_key_inj a b : lock_key a = lock_key b -> a = b.
Proof. unfold lock_key. apply (inj (String.append "lock:")). Qed.

(** X14. The lock. On an initialised keyspace in which the lock is free,
    [acquire_lock] takes it, and from then on, as long as the key is live,
    every [acquire_lock] of the same name fails and changes nothing, while
    locks of other names are not affected. [release_lock] frees the lock without asking who holds it:
    it succeeds for any caller, also when the lock is not held, and after
    it the lock can be taken again; taking and releasing a lock restores
    the keyspace. Before [init_redis] neither function does anything. *)
Theorem lock_excludes_until_anyone_releases (store : gmap string string) name :
  store !! lock_key name = None ->
  fst (acquire_lock (Some store) name) = true
  /\ acquire_lock (snd (acquire_lock (Some store) name)) name
     = (false, snd (acquire_lock (Some store) name))
  /\ (forall other,
        other <> name ->
        fst (acquire_lock (snd (acquire_lock (Some store) name)) other)
        = fst (acquire_lock (Some store) other))
  /\ release_lock (snd (acquire_lock (Some store) name)) name = (true, Some store)
  /\ release_lock (Some store) name = (true, Some store)
  /\ acquire_lock None name = (false, None)
  /\ release_lock None name = (false, None).
Proof.
  intros Hfree. unfold acquire_lock, release_lock. cbv zeta. rewrite Hfree.
  cbn [fst snd]. rewrite lookup_insert_eq.
  split; [done|]. split; [done|]. split; [|split; [|split]].
  - intros other Hne.
    rewrite lookup_insert_ne by (intros Heq; apply lock_key_inj in Heq; congruence).
    by destruct (store !! lock_key other).
  - by rewrite delete_insert_id.
  - by rewrite delete_id.
  - done.
Qed.

Lemma lock_excludes_until_anyone_releases_witness :
  fst (acquire_lock (Some ∅) "train") = true
  /\ acquire_lock (snd (acquire_lock (Some ∅) "train")) "train"
     = (false, snd (acquire_lock (Some ∅) "train"))
  /\ release_lock (snd (acquire_lock (Some ∅) "train")) "train" = (true, Some ∅).
Proof.
  destruct (lock_excludes_until_anyone_releases ∅ "train") as (H1 & H2 & _ & H4 & _).
  - apply lookup_empty.
  - split; [exact H1|]. split; [exact H2|exact H4].
Defined.

End AccessProofs.

(** * User management *)
Section UserProofs.

Import Registry Users Scenario.

Implicit Types (tbl : list AuthUser.row) (u user : AuthUser.row) (db : state).

Lemma write_user_ids user tbl :
  AuthUser.id <$> write_user user tbl = AuthUser.id <$> tbl.
Proof.
  unfold write_user. rewrite <- list_fmap_compose. apply list_fmap_ext.
  intros i u _. simpl. by case_decide.
Qed.

Lemma write_user_emails user tbl :
  (forall u, u ∈ tbl -> AuthUser.id u = AuthUser.id user ->
     AuthUser.email u = AuthUser.email user) ->
  AuthUser.email <$> write_user user tbl = AuthUser.email <$> tbl.
Proof.
  intros Hsame. unfold write_user. rewrite <- list_fmap_compose. apply list_fmap_ext.
  intros i u Hu. simpl. case_decide as Hid; [|done].
  symmetry. apply Hsame; [|done]. by eapply list_elem_of_lookup_2.
Qed.

Lemma elem_of_write_user user tbl v :
  v ∈ write_user user tbl
  <-> (v = user /\ exists u, u ∈ tbl /\ AuthUser.id u = AuthUser.id user)
      \/ (v ∈ tbl /\ AuthUser.id v <> AuthUser.id user).
Proof.
  unfold write_user. rewrite list_elem_of_fmap. split.
  - intros (u & -> & Hu). case_decide; [left|right]; eauto.
  - intros [[-> (u & Hu & Hid)]|[Hv Hid]].
    + exists u. by rewrite decide_True.
    + exists v. by rewrite decide_False.
Qed.

Lemma found_by_id tbl user_id user :
  scalar_one_or_none (filter (fun u => AuthUser.id u = user_id) tbl)
  = Returns (Some user) ->
  user ∈ tbl /\ AuthUser.id user = user_id.
Proof.
  destruct (filter (fun u => AuthUser.id u = user_id) tbl) as [|x [|y rest]] eqn:Hf;
    simpl; intros Heq; try discriminate.
  injection Heq as <-.
  assert (Hx : x ∈ filter (fun u => AuthUser.id u = user_id) tbl) by (rewrite Hf; left).
  apply list_elem_of_filter in Hx. tauto.
Qed.

Lemma find_by_id tbl u :
  NoDup (AuthUser.id <$> tbl) -> u ∈ tbl ->
  scalar_one_or_none (filter (fun v => AuthUser.id v = AuthUser.id u) tbl)
  = Returns (Some u).
Proof. intros Hnd Hu. by rewrite (filter_unique AuthUser.id tbl u Hnd Hu). Qed.

(** The outcomes of [update_user] and [delete_user] on the tables. *)
Lemma update_user_table user_id body cu db :
  auth_user (snd (update_user user_id body cu db)) = auth_user db
  \/ exists user r,
       user ∈ auth_user db /\ AuthUser.id user = user_id
       /\ (r = AuthUser.role user \/ r ∈ valid_roles)
       /\ auth_user (snd (update_user user_id body cu db))
          = write_user
              (AuthUser.mk (AuthUser.id user) (AuthUser.email user)
                 (AuthUser.password_hash user)
                 (default (AuthUser.full_name user) (upd_full_name body)) r
                 (default (AuthUser.is_active user) (upd_is_active body))
                 (AuthUser.created_at user))
              (auth_user db).
Proof.
  unfold update_user.
  destruct (scalar_one_or_none _) as [[user|]|] eqn:Hfound; simpl; try (by left).
  apply found_by_id in Hfound as [Hin Hid].
  destruct (upd_role body) as [r|].
  - case_decide as Hr; simpl; [by left|].
    right. exists user, r. split; [done|]. split; [done|]. split; [|done].
    right. by destruct (decide (r ∈ valid_roles)).
  - simpl. right. exists user, (AuthUser.role user). eauto.
Qed.

Lemma delete_user_table user_id cu db :
  auth_user (snd (delete_user user_id cu db)) = auth_user db
  \/ exists user,
       user ∈ auth_user db /\ AuthUser.id user = user_id
       /\ auth_user (snd (delete_user user_id cu db))
          = write_user (deactivated user) (auth_user db).
Proof.
  unfold delete_user. case_decide; simpl; [by left|].
  destruct (scalar_one_or_none _) as [[user|]|] eqn:Hfound; simpl; try (by left).
  apply found_by_id in Hfound as [Hin Hid]. right. by exists user.
Qed.

Lemma write_user_invariant user tbl :
  NoDup (AuthUser.id <$> tbl) ->
  NoDup (AuthUser.email <$> tbl) ->
  Forall (fun u => AuthUser.role u ∈ valid_roles) tbl ->
  (exists u, u ∈ tbl /\ AuthUser.id u = AuthUser.id user
             /\ AuthUser.email u = AuthUser.email user
             /\ (AuthUser.role user = AuthUser.role u
                 \/ AuthUser.role user ∈ valid_roles)) ->
  NoDup (AuthUser.id <$> write_user user tbl)
  /\ NoDup (AuthUser.email <$> write_user user tbl)
  /\ Forall (fun u => AuthUser.role u ∈ valid_roles) (write_user user tbl).
Proof.
  intros Hid Hemail Hroles (u & Hu & Huid & Huemail & Hrole).
  rewrite write_user_ids. split; [done|]. split.
  - rewrite write_user_emails; [done|].
    intros v Hv Hvid.
    assert (v = u) as ->; [|done].
    eapply (NoDup_fmap_elem_inj AuthUser.id); eauto. congruence.
  - apply Forall_forall. intros v Hv.
    apply elem_of_write_user in Hv as [[-> _]|[Hv _]].
    + destruct Hrole as [->|Hrole]; [|done].
      by apply (proj1 (Forall_forall _ _) Hroles).
    + by apply (proj1 (Forall_forall _ _) Hroles).
Qed.

(** X16. The user table that [create_user], [update_user] and [delete_user]
    build keeps its constraints: the ids are distinct and below the
    auto-increment counter, no two users share an email address, and every
    role is one of admin, analyst and viewer. *)
Theorem user_table_keeps_unique_emails_and_valid_roles
    (hash_password : string -> string) db :
  reachable hash_password db ->
  NoDup (AuthUser.id <$> auth_user db)
  /\ NoDup (AuthUser.email <$> auth_user db)
  /\ Forall (fun u => AuthUser.role u ∈ valid_roles) (auth_user db)
  /\ (forall u, u ∈ auth_user db -> AuthUser.id u < auth_user_seq db).
Proof.
  induction 1 as [|body cu now db Hdb IH|user_id body cu db Hdb IH|user_id cu db Hdb IH].
  - simpl. split; [constructor|]. split; [constructor|]. split; [constructor|].
    intros u Hu. inversion Hu.
  - destruct IH as (Hid & Hemail & Hroles & Hseq). unfold create_user.
    destruct (filter (fun u => AuthUser.email u = new_email body) (auth_user db))
      as [|x [|y rest]] eqn:Hfound; simpl; try done.
    case_decide as Hrole; simpl; [done|].
    rewrite !fmap_app. simpl. split; [|split; [|split]].
    + apply NoDup_app. split; [done|]. split; [|apply NoDup_singleton].
      intros i Hi Hnew. apply list_elem_of_singleton in Hnew as ->.
      apply list_elem_of_fmap in Hi as (u & Hu & Hin). specialize (Hseq u Hin). lia.
    + apply NoDup_app. split; [done|]. split; [|apply NoDup_singleton].
      intros e He Hnew. apply list_elem_of_singleton in Hnew as ->.
      apply list_elem_of_fmap in He as (u & Hu & Hin).
      apply (filter_nil_not_elem_of _ _ u Hfound); done.
    + apply Forall_app. split; [done|]. constructor; [|constructor]. simpl.
      by destruct (decide (new_role body ∈ valid_roles)).
    + intros u Hu. apply elem_of_app in Hu as [Hu|Hu].
      * specialize (Hseq u Hu). lia.
      * apply list_elem_of_singleton in Hu as ->. simpl. lia.
  - destruct IH as (Hid & Hemail & Hroles & Hseq).
    assert (Hsame : auth_user_seq (snd (update_user user_id body cu db))
                    = auth_user_seq db).
    { unfold update_user. destruct (scalar_one_or_none _) as [[user|]|]; simpl; try done.
      destruct (upd_role body) as [r|]; [case_decide|]; done. }
    rewrite Hsame.
    destruct (update_user_table user_id body cu db) as [->|(user & r & Hin & Huid & Hr & ->)];
      [done|].
    match goal with
    | |- context [write_user ?w _] =>
        destruct (write_user_invariant w (auth_user db) Hid Hemail Hroles)
          as (H1 & H2 & H3); [exists user; simpl; tauto|]
    end.
    split; [exact H1|]. split; [exact H2|]. split; [exact H3|].
    intros u Hu. apply (list_elem_of_fmap_2 AuthUser.id) in Hu.
    rewrite write_user_ids in Hu. apply list_elem_of_fmap in Hu as (v & -> & Hv).
    by apply Hseq.
  - destruct IH as (Hid & Hemail & Hroles & Hseq).
    assert (Hsame : auth_user_seq (snd (delete_user user_id cu db)) = auth_user_seq db).
    { unfold delete_user. case_decide; [done|].
      destruct (scalar_one_or_none _) as [[user|]|]; done. }
    rewrite Hsame.
    destruct (delete_user_table user_id cu db) as [->|(user & Hin & Huid & ->)]; [done|].
    match goal with
    | |- context [write_user ?w _] =>
        destruct (write_user_invariant w (auth_user db) Hid Hemail Hroles)
          as (H1 & H2 & H3); [exists user; simpl; tauto|]
    end.
    split; [exact H1|]. split; [exact H2|]. split; [exact H3|].
    intros u Hu. apply (list_elem_of_fmap_2 AuthUser.id) in Hu.
    rewrite write_user_ids in Hu. apply list_elem_of_fmap in Hu as (v & -> & Hv).
    by apply Hseq.
Qed.

Lemma user_table_keeps_unique_emails_and_valid_roles_witness :
  NoDup (AuthUser.id <$> auth_user two_users)
  /\ NoDup (AuthUser.email <$> auth_user two_users)
  /\ Forall (fun u => AuthUser.role u ∈ valid_roles) (auth_user two_users)
  /\ (forall u, u ∈ auth_user two_users -> AuthUser.id u < auth_user_seq two_users).
Proof.
  apply (user_table_keeps_unique_emails_and_valid_roles demo_hash two_users).
  unfold two_users. apply reach_create, reach_create, reach_empty.
Defined.

(** X17. [delete_user] is a soft delete. For a user other than the caller it
    succeeds, keeps every row of the table, clears [is_active] on the row
    of that user and changes no other column and no other row; the user
    is gone from the default listing of [list_users] and still shown when
    inactive users are asked for; one audit record is written. *)
Theorem delete_user_deactivates_without_removing user_id cu db u :
  NoDup (AuthUser.id <$> auth_user db) ->
  u ∈ auth_user db ->
  AuthUser.id u = user_id ->
  sub cu <> user_id ->
  exists db',
    delete_user user_id cu db = (Returns tt, db')
    /\ (AuthUser.id <$> auth_user db') = (AuthUser.id <$> auth_user db)
    /\ deactivated u ∈ auth_user db'
    /\ (forall v, v ∈ auth_user db -> AuthUser.id v <> user_id -> v ∈ auth_user db')
    /\ (forall v, v ∈ auth_user db' ->
          v = deactivated u \/ (v ∈ auth_user db /\ AuthUser.id v <> user_id))
    /\ (deactivated u ∉ list_users false db')
    /\ deactivated u ∈ list_users true db'
    /\ audit_log db'
       = audit_log db ++ [mkAudit (sub cu) "delete_user" "auth_user" (pretty user_id)].
Proof.
  intros Hid Hu <- Hother. unfold delete_user.
  rewrite decide_False by done. rewrite (find_by_id _ u Hid Hu).
  eexists. split; [reflexivity|]. cbn [auth_user audit_log].
  fold (deactivated u).
  assert (Hrow : deactivated u ∈ write_user (deactivated u) (auth_user db)).
  { apply elem_of_write_user. left. split; [done|]. by exists u. }
  split; [apply write_user_ids|]. split; [exact Hrow|]. split; [|split; [|split; [|split]]].
  - intros v Hv Hne. apply elem_of_write_user. by right.
  - intros v Hv. apply elem_of_write_user in Hv as [[-> _]|Hv]; [by left|by right].
  - unfold list_users. cbn [auth_user]. rewrite merge_sort_Permutation.
    intros Hin. apply list_elem_of_filter in Hin as [Hactive _]. discriminate.
  - unfold list_users. cbn [auth_user]. by rewrite merge_sort_Permutation.
  - reflexivity.
Qed.

Lemma delete_user_deactivates_without_removing_witness :
  exists db',
    delete_user 2 admin two_users = (Returns tt, db')
    /\ deactivated (AuthUser.mk 2 "analyst@indigoglass.example" "bcrypt:s3cret"
                                "An Analyst" "analyst" true 200)
       ∈ auth_user db'
    /\ deactivated (AuthUser.mk 2 "analyst@indigoglass.example" "bcrypt:s3cret"
                                "An Analyst" "analyst" true 200)
       ∉ list_users false db'.
Proof.
  destruct (delete_user_deactivates_without_removing 2 admin two_users
              (AuthUser.mk 2 "analyst@indigoglass.example" "bcrypt:s3cret"
                           "An Analyst" "analyst" true 200))
    as (db' & Hcall & _ & Hin & _ & _ & Hout & _).
  - apply (bool_decide_unpack _). vm_compute. reflexivity.
  - vm_compute. right. left.
  - reflexivity.
  - discriminate.
  - exists db'. split; [exact Hcall|]. split; [exact Hin|exact Hout].
Defined.

(** X18. The guard against removing one's own account sits in [delete_user]
    alone: [delete_user] on the caller's own id is refused with the 400
    and changes nothing, while [update_user] with [is_active = false] on
    the same id goes through and deactivates the caller's account just as
    a soft delete would. *)
Theorem own_account_guard_is_in_delete_user_only cu db :
  delete_user (sub cu) cu db
  = (Raises (HTTPException 400 "Cannot delete your own account"), db)
  /\ (forall u,
        NoDup (AuthUser.id <$> auth_user db) ->
        u ∈ auth_user db ->
        AuthUser.id u = sub cu ->
        exists db',
          update_user (sub cu) (mkUpdate None None (Some false)) cu db
          = (Returns (deactivated u), db')
          /\ deactivated u ∈ auth_user db'
          /\ deactivated u ∉ list_users false db').
Proof.
  split.
  - unfold delete_user. by rewrite decide_True.
  - intros u Hid Hu Hown. unfold update_user. rewrite <- Hown.
    rewrite (find_by_id _ u Hid Hu). cbn [upd_role upd_full_name upd_is_active default].
    fold (deactivated u).
    eexists. split; [reflexivity|]. cbn [auth_user]. split.
    + apply elem_of_write_user. left. split; [done|]. by exists u.
    + unfold list_users. cbn [auth_user]. rewrite merge_sort_Permutation.
      intros Hin. apply list_elem_of_filter in Hin as [Hactive _]. discriminate.
Qed.

Lemma own_account_guard_is_in_delete_user_only_witness :
  delete_user 1 admin two_users
  = (Raises (HTTPException 400 "Cannot delete your own account"), two_users)
  /\ exists db',
       update_user 1 (mkUpdate None None (Some false)) admin two_users
       = (Returns (deactivated (AuthUser.mk 1 "admin@indigoglass.example" "bcrypt:r00t"
                                            "The Admin" "admin" true 100)), db').
Proof.
  destruct (own_account_guard_is_in_delete_user_only admin two_users) as [Hdel Hupd].
  split; [exact Hdel|].
  destruct (Hupd (AuthUser.mk 1 "admin@indigoglass.example" "bcrypt:r00t"
                              "The Admin" "admin" true 100))
    as (db' & Hcall & _).
  - apply (bool_decide_unpack _). vm_compute. reflexivity.
  - vm_compute. left.
  - reflexivity.
  - by exists db'.
Defined.

End UserProofs.
